(** * SKYNOTE: the weather flow and its cache ([src/ai/genkit.ts])

    A shallow embedding of the TypeScript module that fetches current weather
    and a forecast from OpenWeatherMap, normalises both into the application's
    snapshot and serves the snapshot through a five-minute in-memory cache.

    Conventions of the embedding.
    - A JavaScript [number] is an IEEE 754 binary64 value: Rocq's primitive
      [float], with the operations of the language ([+], [*], [/], [Math.round],
      [Math.max], [Math.min], [toFixed]) written out on it.
    - Unix timestamps, the time-zone offset and the clock ([Date.now()]) are
      whole numbers: [Z], seconds or milliseconds as the code has them.
    - A JavaScript string is a sequence of code units; the embedding covers the
      code units U+0000..U+00FF (one [ascii] each), on which [trim] and
      [toLowerCase] are written out in full.
    - The in-memory [Map] is a [gmap]; the object used as a dictionary of days
      is an association list in insertion order.
    - Effects (the clock, the cache, the HTTP requests issued, thrown errors)
      are threaded through a state-and-exception monad. *)

From Stdlib Require Import ZArith List String Ascii Floats DecimalString Sorted Lia.
From stdpp Require Import gmap strings.

Set Warnings "-inexact-float".
Local Open Scope Z_scope.

(** ** The parts of the JavaScript runtime the module relies on *)

Module JS.

(** *** Strings *)

(** WhiteSpace and LineTerminator code points below U+0100: TAB, LF, VT, FF,
    CR, SPACE and NO-BREAK SPACE. *)
Definition isWhiteSpace (c : ascii) : bool :=
  let n := N_of_ascii c in
  ((9 <=? n)%N && (n <=? 13)%N) || (n =? 32)%N || (n =? 160)%N.

Fixpoint trimStart (s : string) : string :=
  match s with
  | String c r => if isWhiteSpace c then trimStart r else s
  | EmptyString => EmptyString
  end.

Fixpoint trimEnd (s : string) : string :=
  match s with
  | EmptyString => EmptyString
  | String c r =>
      match trimEnd r with
      | EmptyString => if isWhiteSpace c then EmptyString else String c EmptyString
      | r' => String c r'
      end
  end.

(** [String.prototype.trim] *)
Definition trim (s : string) : string := trimEnd (trimStart s).

(** Lower-casing of one code unit below U+0100: A-Z, and the Latin-1 capitals
    U+00C0..U+00DE without the multiplication sign U+00D7. *)
Definition lowerChar (c : ascii) : ascii :=
  let n := N_of_ascii c in
  if ((65 <=? n)%N && (n <=? 90)%N)
     || ((192 <=? n)%N && (n <=? 222)%N && negb (n =? 215)%N)
  then ascii_of_N (n + 32) else c.

(** [String.prototype.toLowerCase] *)
Fixpoint toLowerCase (s : string) : string :=
  match s with
  | EmptyString => EmptyString
  | String c r => String (lowerChar c) (toLowerCase r)
  end.

(** Truthiness of a string: every string but the empty one. *)
Definition truthy (s : string) : bool :=
  match s with EmptyString => false | String _ _ => true end.

(** Decimal numeral of a natural number, as in a template literal. *)
Definition digits (n : N) : string := NilZero.string_of_uint (N.to_uint n).

(** Decimal numeral of an integer. *)
Definition integerToString (z : Z) : string :=
  match z with
  | Zneg p => "-" +:+ digits (Npos p)
  | _ => digits (Z.to_N z)
  end.

(** *** Numbers *)

(** The integer [z] as a number; exact when [|z| < 2^53]. *)
Definition ofZ (z : Z) : float :=
  match z with
  | Z0 => 0%float
  | Zpos _ => of_uint63 (Uint63.of_Z z)
  | Zneg _ => (- of_uint63 (Uint63.of_Z (- z)))%float
  end.

(** [Math.max] of two numbers: NaN is contagious and [+0] is above [-0]. *)
Definition Math_max (x y : float) : float :=
  if is_nan x || is_nan y then nan
  else if (x <? y)%float then y
  else if (y <? x)%float then x
  else if get_sign x then y else x.

(** [Math.min] of two numbers: NaN is contagious and [-0] is below [+0]. *)
Definition Math_min (x y : float) : float :=
  if is_nan x || is_nan y then nan
  else if (x <? y)%float then x
  else if (y <? x)%float then y
  else if get_sign x then x else y.

(** [Math.round]: the integral number closest to [x], the one towards
    [+Infinity] on a tie; NaN, the infinities, the zeros and integral values
    are returned as they are; a value in [[-0.5, 0)] gives [-0].  A finite
    value [m * 2^e] with [e < 0] is below [2^53] in magnitude, so the
    integer [floor (x + 1/2)] computed in [Z] converts back exactly. *)
Definition Math_round (x : float) : float :=
  match Prim2SF x with
  | S754_finite s m e =>
      if 0 <=? e then x
      else
        let z := if s then Zneg m else Zpos m in
        let r := (2 * z + 2 ^ (- e)) / 2 ^ (- e + 1) in
        if r =? 0 then (if s then (-0)%float else 0%float) else ofZ r
  | _ => x
  end.

(** The integer nearest to [|x| * 10^f] (the larger one on a tie), for a
    finite [x]; this is step 7 of [Number.prototype.toFixed]. *)
Definition scaledNearest (f : N) (x : float) : N :=
  match Prim2SF x with
  | S754_finite _ m e =>
      let p := Zpos m * 10 ^ Z.of_N f in
      if 0 <=? e then Z.to_N (p * 2 ^ e)
      else Z.to_N ((2 * p + 2 ^ (- e)) / 2 ^ (- e + 1))
  | _ => 0%N
  end.

(** [n] zeros. *)
Fixpoint zeros (n : nat) : string :=
  match n with O => EmptyString | S k => String "0" (zeros k) end.

(** The numeral of [n] with a decimal point before its last [f] digits,
    padded with zeros on the left so that a digit stands before the point. *)
Definition fixedNumeral (f : nat) (n : N) : string :=
  let m := if (n =? 0)%N then "0"%string else digits n in
  let m := if (String.length m <=? f)%nat
           then zeros (f + 1 - String.length m) +:+ m else m in
  match f with
  | O => m
  | _ => let k := (String.length m - f)%nat in
         substring 0 k m +:+ "." +:+ substring k f m
  end.

Section ToString.

(** [Number::toString], the shortest numeral that reads back as the same
    number. The module uses it only inside request URLs, and [toFixed]
    falls back on it from [10^21] on; it is left to the runtime. *)
Variable Number_toString : float -> string.

(** [Number.prototype.toFixed] with [f] fraction digits. *)
Definition toFixed (f : nat) (x : float) : string :=
  if is_nan x then "NaN"%string
  else if is_infinity x then
    (if get_sign x then "-Infinity" else "Infinity")%string
  else if (1e21 <=? abs x)%float then Number_toString x
  else
    (if (x <? 0)%float then "-" else "")%string
    +:+ fixedNumeral f (scaledNearest (N.of_nat f) x).

End ToString.

(** SameValueZero: equality of numbers as [===] has it, with NaN equal to
    itself. *)
Definition sameValueZero (x y : float) : bool :=
  (x =? y)%float || (is_nan x && is_nan y).

End JS.


(** ** Data model *)

(** The application's condition enum ([WeatherCondition]). *)
Inductive WeatherCondition :=
  Sunny | Cloudy | Rainy | Snowy | Thunderstorm | Fog | Haze.

(** What [mapping[main] || 'Sunny'] evaluates to. TypeScript types it
    [WeatherCondition]; [mapping] is an object literal, so a lookup also finds
    the members every object inherits from [Object.prototype], and those are
    functions or objects, not conditions. *)
Inductive MappedCondition :=
| Condition (c : WeatherCondition)
| Inherited (member : string).

(** [GetWeatherDataInput]: each of the three fields may be absent. *)
Module Input.
Record t := make { location : option string; lat : option float; lon : option float }.
End Input.

(** [DailyData] *)
Module Daily.
Record t := make {
  day : string;
  condition : MappedCondition;
  tempHigh : float;
  tempLow : float;
  humidity : float }.
End Daily.

(** An entry of [hourly]. *)
Module Hourly.
Record t := make {
  time : string;
  condition : MappedCondition;
  temperature : float;
  windSpeed : float;
  humidity : float }.
End Hourly.

(** [GetWeatherDataOutput], the snapshot. *)
Module Output.
Record t := make {
  location : string;
  condition : MappedCondition;
  temperature : float;
  feelsLike : float;
  humidity : float;
  windSpeed : float;
  sunrise : string;
  sunset : string;
  currentTime : string;
  forecast : list Daily.t;
  hourly : list Hourly.t }.
End Output.

(** The provider's current-weather document, the fields the flow reads:
    [coord.lat], [coord.lon], [name], [weather[i].main], [main.temp],
    [main.feels_like], [main.humidity], [wind.speed], [sys.sunrise],
    [sys.sunset], [dt]. *)
Module Current.
Record t := make {
  coord_lat : float;
  coord_lon : float;
  name : string;
  weather : list string;
  temp : float;
  feels_like : float;
  humidity : float;
  wind_speed : float;
  sunrise : Z;
  sunset : Z;
  dt : Z }.
End Current.

(** One 3-hour sample of the forecast document: [dt], [weather[i].main],
    [main.temp], [main.temp_max], [main.temp_min], [main.humidity],
    [wind.speed]. *)
Module Sample.
Record t := make {
  dt : Z;
  weather : list string;
  temp : float;
  temp_max : float;
  temp_min : float;
  humidity : float;
  wind_speed : float }.
End Sample.

(** The forecast document: [city.timezone] and [list]. *)
Module Forecast.
Record t := make { timezone : Z; list : list Sample.t }.
End Forecast.

(** An HTTP response: its status and its body text. *)
Record Response := { status : Z; text : string }.

(** [Response.ok]: a status in 200..299. *)
Definition ok (r : Response) : bool := (200 <=? status r) && (status r <=? 299).

(** What one [fetch] meets: a response, or none when the request itself fails,
    and the time in milliseconds it took. *)
Record Exchange := { response : option Response; latency : Z }.

(** What the module takes from its surroundings: the runtime's number
    printing and [Intl.DateTimeFormat] (for the options the module always
    passes: numeric hour, two-digit minute, 12-hour clock, UTC), the local
    time-zone offset in milliseconds at an instant (date-fns formats in local
    time), the API key of the environment, the network, and the reading of a
    response body as JSON of the provider's shape ([None]: the body is not
    such a document). *)
Record Runtime := {
  Number_toString : float -> string;
  Intl_format : Z -> string;
  localOffset : Z -> Z;
  OPENWEATHER_API_KEY : string;
  net : Z -> string -> Exchange;
  JSON_weather : string -> option Current.t;
  JSON_forecast : string -> option Forecast.t }.

(** [CacheEntry] *)
Record CacheEntry := { data : Output.t; expiry : Z }.

(** The state the module runs in: the clock (milliseconds, what [Date.now()]
    returns), the module-level [weatherCache], and the URLs requested so far. *)
Record World := {
  now : Z;
  weatherCache : gmap string CacheEntry;
  requests : list string }.

(** What a call can throw: the refusal of a value by a schema of the flow
    ([ValidationError]), [new Error(message)], a rejected [fetch], a body
    that is no JSON document, and the [TypeError] and [RangeError] of the
    language. *)
Inductive Exn :=
| ValidationError (message : string)
| Error (message : string)
| FetchFailed
| JsonError
| TypeError
| RangeError.

(** ** Computations *)

(** A computation that returns or throws, without effects. *)
Definition Result (A : Type) : Type := Exn + A.

#[global] Instance Result_ret : MRet Result := fun A a => inr a.
#[global] Instance Result_bind : MBind Result :=
  fun A B f m => match m with inr a => f a | inl e => inl e end.

(** A computation in a world: it returns or throws, and leaves a world. *)
Definition M (A : Type) : Type := World -> Result A * World.

#[global] Instance M_ret : MRet M := fun A a w => (inr a, w).
#[global] Instance M_bind : MBind M :=
  fun A B f m w =>
    match m w with
    | (inr a, w') => f a w'
    | (inl e, w') => (inl e, w')
    end.

Definition throw {A} (e : Exn) : M A := fun w => (inl e, w).

Definition lift {A} (r : Result A) : M A := fun w => (r, w).

(** [Date.now()] *)
Definition Date_now : M Z := fun w => (inr (now w), w).

(** [weatherCache.get(key)] *)
Definition Map_get (key : string) : M (option CacheEntry) :=
  fun w => (inr (weatherCache w !! key), w).

(** [weatherCache.delete(key)] *)
Definition Map_delete (key : string) : M unit :=
  fun w => (inr tt, {| now := now w;
                       weatherCache := delete key (weatherCache w);
                       requests := requests w |}).

(** [weatherCache.set(key, entry)] *)
Definition Map_set (key : string) (entry : CacheEntry) : M unit :=
  fun w => (inr tt, {| now := now w;
                       weatherCache := <[key := entry]> (weatherCache w);
                       requests := requests w |}).

(** [await fetch(url)]: the request is recorded, the clock moves on by the
    latency, and the call returns the response or throws. *)
Definition fetch (rt : Runtime) (url : string) : M Response :=
  fun w =>
    let x := net rt (now w) url in
    let w' := {| now := now w + Z.max 0 (latency x);
                 weatherCache := weatherCache w;
                 requests := requests w ++ [url] |} in
    match response x with
    | Some r => (inr r, w')
    | None => (inl FetchFailed, w')
    end.

(** ** The module *)

Definition CACHE_TTL_MS : Z := 5 * 60 * 1000.

(** [z.number()] as a flow checks it: a number that is neither NaN nor an
    infinity. *)
Definition z_number (x : float) : bool := negb (is_nan x) && negb (is_infinity x).

(** The refinement written on [GetWeatherDataInputSchema]:
    [data.location || (typeof data.lat === 'number' && typeof data.lon === 'number')].
    A flow checks its input against the JSON schema of the object, in which a
    refinement has no counterpart: the flow does not apply it, and the guard
    in the flow's body tests the same condition again. *)
Definition refinement (data : Input.t) : bool :=
  match Input.location data with
  | Some l => JS.truthy l
  | None => false
  end
  || (bool_decide (is_Some (Input.lat data)) && bool_decide (is_Some (Input.lon data))).

(** [GetWeatherDataInputSchema] as the flow checks it: [location] an optional
    string, [lat] and [lon] optional numbers. *)
Definition GetWeatherDataInputSchema (data : Input.t) : bool :=
  from_option z_number true (Input.lat data)
  && from_option z_number true (Input.lon data).

Definition getCacheKey (rt : Runtime) (input : Input.t) : option string :=
  let byCoordinates :=
    match Input.lat input, Input.lon input with
    | Some lat, Some lon =>
        Some (JS.toFixed (Number_toString rt) 2 lat +:+ ":"
              +:+ JS.toFixed (Number_toString rt) 2 lon)
    | _, _ => None
    end in
  match Input.location input with
  | Some l => if JS.truthy l then Some (JS.toLowerCase (JS.trim l)) else byCoordinates
  | None => byCoordinates
  end.

Definition getCachedWeather (key : string) : M (option Output.t) :=
  cached ← Map_get key;
  match cached with
  | None => mret None
  | Some cached =>
      t ← Date_now;
      if expiry cached <=? t then _ ← Map_delete key; mret None
      else mret (Some (data cached))
  end.

Definition setCachedWeather (key : string) (data : Output.t) : M unit :=
  t ← Date_now;
  Map_set key {| data := data; expiry := t + CACHE_TTL_MS |}.

(** The property names of [Object.prototype]; each holds a function, or for
    [__proto__] the prototype object: all truthy. *)
Definition Object_prototype : list string :=
  ["constructor"; "__defineGetter__"; "__defineSetter__"; "hasOwnProperty";
   "__lookupGetter__"; "__lookupSetter__"; "isPrototypeOf";
   "propertyIsEnumerable"; "toString"; "valueOf"; "__proto__";
   "toLocaleString"]%string.

Definition mapping : list (string * WeatherCondition) :=
  [("Clear", Sunny); ("Clouds", Cloudy); ("Rain", Rainy); ("Drizzle", Rainy);
   ("Snow", Snowy); ("Thunderstorm", Thunderstorm); ("Mist", Fog); ("Fog", Fog);
   ("Haze", Haze)]%string.

(** Own property [key] of the object literal. *)
Fixpoint own (key : string) (o : list (string * WeatherCondition)) : option WeatherCondition :=
  match o with
  | [] => None
  | (k, v) :: o' => if String.eqb k key then Some v else own key o'
  end.

(** [mapping[main] || 'Sunny']: an own property first, then the prototype;
    the default only when neither has the key. *)
Definition mapWeatherCondition (main : string) : MappedCondition :=
  match own main mapping with
  | Some c => Condition c
  | None =>
      if existsb (String.eqb main) Object_prototype then Inherited main
      else Condition Sunny
  end.

(** The time value of [new Date(ms)]: [None] is an Invalid Date, beyond
    8.64e15 milliseconds from the epoch. *)
Definition newDate (ms : Z) : option Z :=
  if Z.abs ms <=? 8640000000000000 then Some ms else None.

(** [a <= b] on two dates: false as soon as one is invalid. *)
Definition Date_le (a b : option Z) : bool :=
  match a, b with
  | Some x, Some y => x <=? y
  | _, _ => false
  end.

(** [formatTimeFromTimestamp]: the formatter throws on an Invalid Date, which
    the function turns into ['N/A']. The options of both call sites merge to
    the same set, the one [Intl_format] stands for. *)
Definition formatTimeFromTimestamp (rt : Runtime) (timestamp timezoneOffset : Z) : string :=
  match newDate ((timestamp + timezoneOffset) * 1000) with
  | Some ms => Intl_format rt ms
  | None => "N/A"
  end.

Definition weekdays : list string :=
  ["Sun"; "Mon"; "Tue"; "Wed"; "Thu"; "Fri"; "Sat"]%string.

(** date-fns [format(date, 'EEE')]: the weekday of the local calendar day;
    it throws a RangeError on an Invalid Date. 1970-01-01 was a Thursday. *)
Definition format_EEE (rt : Runtime) (date : option Z) : Result string :=
  match date with
  | Some ms =>
      inr (nth (Z.to_nat (((ms + localOffset rt ms) / 86400000 + 4) mod 7)) weekdays "Sun"%string)
  | None => inl RangeError
  end.

(** [weather[0].main]: reading [main] of [undefined] throws. *)
Definition weather0_main (weather : list string) : Result string :=
  match weather with
  | main :: _ => inr main
  | [] => inl TypeError
  end.

(** [xs.map(f)] for an [f] that may throw. *)
Fixpoint mapResult {A B} (f : A -> Result B) (xs : list A) : Result (list B) :=
  match xs with
  | [] => inr []
  | x :: xs' => y ← f x; ys ← mapResult f xs'; mret (y :: ys)
  end.

(** The callback of [.filter] in the hourly pipeline. *)
Definition withinDay (twentyFourHoursFromNow : option Z) (h : Sample.t) : bool :=
  Date_le (newDate (Sample.dt h * 1000)) twentyFourHoursFromNow.

(** The callback of [.map] in the hourly pipeline. *)
Definition hourlyEntry (rt : Runtime) (timezoneOffset : Z) (h : Sample.t) : Result Hourly.t :=
  main ← weather0_main (Sample.weather h);
  mret (Hourly.make
          (formatTimeFromTimestamp rt (Sample.dt h) timezoneOffset)
          (mapWeatherCondition main)
          (JS.Math_round (Sample.temp h))
          (JS.Math_round (Sample.wind_speed h * 3.6)%float)
          (JS.Math_round (Sample.humidity h))).

(** [forecastData.list.filter(..).slice(0, 8).map(..)] *)
Definition hourlyOf (rt : Runtime) (timezoneOffset nowMs : Z) (samples : list Sample.t)
  : Result (list Hourly.t) :=
  let twentyFourHoursFromNow := newDate (nowMs + 24 * 60 * 60 * 1000) in
  mapResult (hourlyEntry rt timezoneOffset)
            (take 8 (List.filter (withinDay twentyFourHoursFromNow) samples)).

(** [dailyForecasts[day]] on the object of days, kept in insertion order. *)
Fixpoint lookupDay (day : string) (o : list (string * Daily.t)) : option Daily.t :=
  match o with
  | [] => None
  | (k, v) :: o' => if String.eqb k day then Some v else lookupDay day o'
  end.

(** Assignment to the fields of [dailyForecasts[day]]. *)
Fixpoint updateDay (day : string) (f : Daily.t -> Daily.t) (o : list (string * Daily.t))
  : list (string * Daily.t) :=
  match o with
  | [] => []
  | (k, v) :: o' =>
      if String.eqb k day then (k, f v) :: o' else (k, v) :: updateDay day f o'
  end.

(** The three assignments of one round of the [forEach]. *)
Definition accumulate (item : Sample.t) (d : Daily.t) : Daily.t :=
  Daily.make
    (Daily.day d)
    (Daily.condition d)
    (JS.Math_max (Daily.tempHigh d) (Sample.temp_max item))
    (JS.Math_min (Daily.tempLow d) (Sample.temp_min item))
    ((Daily.humidity d + Sample.humidity item) / 2)%float.

(** One round of the [forEach] over the forecast list. *)
Definition dailyStep (rt : Runtime) (dailyForecasts : list (string * Daily.t)) (item : Sample.t)
  : Result (list (string * Daily.t)) :=
  day ← format_EEE rt (newDate (Sample.dt item * 1000));
  dailyForecasts ←
    match lookupDay day dailyForecasts with
    | Some _ => mret dailyForecasts
    | None =>
        main ← weather0_main (Sample.weather item);
        mret (dailyForecasts ++
                [(day, Daily.make day (mapWeatherCondition main) neg_infinity infinity 0%float)])
    end;
  mret (updateDay day (accumulate item) dailyForecasts).

(** The [forEach]: the rounds in list order, stopped by the first throw. *)
Fixpoint dailyLoop (rt : Runtime) (dailyForecasts : list (string * Daily.t))
  (items : list Sample.t) : Result (list (string * Daily.t)) :=
  match items with
  | [] => inr dailyForecasts
  | item :: items' =>
      dailyForecasts ← dailyStep rt dailyForecasts item;
      dailyLoop rt dailyForecasts items'
  end.

(** The callback of [.map] in the daily pipeline. *)
Definition roundDay (d : Daily.t) : Daily.t :=
  Daily.make
    (Daily.day d)
    (Daily.condition d)
    (JS.Math_round (Daily.tempHigh d))
    (JS.Math_round (Daily.tempLow d))
    (JS.Math_round (Daily.humidity d)).

(** [Object.values(dailyForecasts).slice(0, 7).map(..)]; the keys are weekday
    names, none of them an array index, so the values come in insertion
    order. *)
Definition forecastOf (rt : Runtime) (samples : list Sample.t) : Result (list Daily.t) :=
  dailyForecasts ← dailyLoop rt [] samples;
  mret (map roundDay (take 7 (map snd dailyForecasts))).

(** [transformedData] *)
Definition transform (rt : Runtime) (weatherData : Current.t) (timezoneOffset : Z)
  (forecast : list Daily.t) (hourly : list Hourly.t) : Result Output.t :=
  main ← weather0_main (Current.weather weatherData);
  mret (Output.make
          (if JS.truthy (Current.name weatherData) then Current.name weatherData
           else "Current Location"%string)
          (mapWeatherCondition main)
          (JS.Math_round (Current.temp weatherData))
          (JS.Math_round (Current.feels_like weatherData))
          (JS.Math_round (Current.humidity weatherData))
          (JS.Math_round (Current.wind_speed weatherData * 3.6)%float)
          (formatTimeFromTimestamp rt (Current.sunrise weatherData) timezoneOffset)
          (formatTimeFromTimestamp rt (Current.sunset weatherData) timezoneOffset)
          (formatTimeFromTimestamp rt (Current.dt weatherData) timezoneOffset)
          forecast
          hourly).

Definition validationMessage : string :=
  "Either location or both lat and lon must be provided.".

Definition weatherEndpoint : string := "https://api.openweathermap.org/data/2.5/weather".
Definition forecastEndpoint : string := "https://api.openweathermap.org/data/2.5/forecast".

(** The choice of [weatherUrl]. *)
Definition weatherUrlOf (rt : Runtime) (input : Input.t) : Result string :=
  let apiKey := OPENWEATHER_API_KEY rt in
  let byCoordinates :=
    match Input.lat input, Input.lon input with
    | Some lat, Some lon =>
        inr (weatherEndpoint +:+ "?lat=" +:+ Number_toString rt lat +:+ "&lon="
             +:+ Number_toString rt lon +:+ "&appid=" +:+ apiKey +:+ "&units=metric")
    | _, _ => inl (Error validationMessage)
    end in
  match Input.location input with
  | Some location =>
      if JS.truthy location
      then inr (weatherEndpoint +:+ "?q=" +:+ location +:+ "&appid=" +:+ apiKey
                +:+ "&units=metric")
      else byCoordinates
  | None => byCoordinates
  end.

(** The choice of [forecastUrl]: the caller's coordinates when given
    ([lat ?? coord.lat]), the provider's otherwise. *)
Definition forecastUrlOf (rt : Runtime) (input : Input.t) (weatherData : Current.t) : string :=
  let apiKey := OPENWEATHER_API_KEY rt in
  let latitude := default (Current.coord_lat weatherData) (Input.lat input) in
  let longitude := default (Current.coord_lon weatherData) (Input.lon input) in
  forecastEndpoint +:+ "?lat=" +:+ Number_toString rt latitude +:+ "&lon="
  +:+ Number_toString rt longitude +:+ "&appid=" +:+ apiKey +:+ "&units=metric".

(** The error thrown on a current-weather response that is not ok. *)
Definition weatherFailure (r : Response) : Exn :=
  Error ("OpenWeather API request failed with status "
         +:+ JS.integerToString (status r) +:+ ": " +:+ text r).

(** The error thrown on a forecast response that is not ok. *)
Definition forecastFailure (r : Response) : Exn :=
  Error ("OpenWeather Forecast API request failed with status "
         +:+ JS.integerToString (status r) +:+ ": " +:+ text r).

(** The body of the flow. *)
Definition flowBody (rt : Runtime) (input : Input.t) : M Output.t :=
  weatherUrl ← lift (weatherUrlOf rt input);
  weatherResponse ← fetch rt weatherUrl;
  _ ← (if ok weatherResponse then mret tt else throw (weatherFailure weatherResponse));
  weatherData ← lift (match JSON_weather rt (text weatherResponse) with
                      | Some d => inr d
                      | None => inl JsonError
                      end);
  forecastResponse ← fetch rt (forecastUrlOf rt input weatherData);
  _ ← (if ok forecastResponse then mret tt else throw (forecastFailure forecastResponse));
  forecastData ← lift (match JSON_forecast rt (text forecastResponse) with
                       | Some d => inr d
                       | None => inl JsonError
                       end);
  let timezoneOffset := Forecast.timezone forecastData in
  nowMs ← Date_now;
  hourly ← lift (hourlyOf rt timezoneOffset nowMs (Forecast.list forecastData));
  forecast ← lift (forecastOf rt (Forecast.list forecastData));
  lift (transform rt weatherData timezoneOffset forecast hourly).

Definition isCondition (c : MappedCondition) : bool :=
  match c with Condition _ => true | Inherited _ => false end.

(** [DailyDataSchema]: the condition is one of the seven, the numbers are
    numbers. *)
Definition DailyDataSchema (d : Daily.t) : bool :=
  isCondition (Daily.condition d)
  && z_number (Daily.tempHigh d) && z_number (Daily.tempLow d)
  && z_number (Daily.humidity d).

(** The schema of an entry of [hourly]. *)
Definition HourlyDataSchema (h : Hourly.t) : bool :=
  isCondition (Hourly.condition h)
  && z_number (Hourly.temperature h) && z_number (Hourly.windSpeed h)
  && z_number (Hourly.humidity h).

(** [GetWeatherDataOutputSchema], as far as types do not already say it: the
    [z.enum] fields hold one of the seven conditions and the [z.number]
    fields hold numbers. *)
Definition GetWeatherDataOutputSchema (o : Output.t) : bool :=
  isCondition (Output.condition o)
  && z_number (Output.temperature o) && z_number (Output.feelsLike o)
  && z_number (Output.humidity o) && z_number (Output.windSpeed o)
  && forallb DailyDataSchema (Output.forecast o)
  && forallb HourlyDataSchema (Output.hourly o).

(** The head of the message of a refusal by a schema; the list of offending
    fields that follows it in the library's message is left out. *)
Definition schemaMessage : string := "Schema validation failed.".

(** [ai.defineFlow({inputSchema, outputSchema}, body)]: the input is checked
    against its schema before the body runs, the result against its schema
    after. A query in neither form passes the input schema and is stopped by
    the guard of the body. *)
Definition getWeatherDataFlow (rt : Runtime) (input : Input.t) : M Output.t :=
  if GetWeatherDataInputSchema input then
    output ← flowBody rt input;
    if GetWeatherDataOutputSchema output then mret output
    else throw (ValidationError schemaMessage)
  else throw (ValidationError schemaMessage).

(** Truthiness of [cacheKey]: neither [null] nor the empty string. *)
Definition usableKey (cacheKey : option string) : option string :=
  match cacheKey with
  | Some k => if JS.truthy k then Some k else None
  | None => None
  end.

Definition getWeatherData (rt : Runtime) (input : Input.t) : M Output.t :=
  let cacheKey := usableKey (getCacheKey rt input) in
  cached ← match cacheKey with
           | Some key => getCachedWeather key
           | None => mret None
           end;
  match cached with
  | Some cached => mret cached
  | None =>
      result ← getWeatherDataFlow rt input;
      _ ← match cacheKey with
          | Some key => setCachedWeather key result
          | None => mret tt
          end;
      mret result
  end.

(** ** Vocabulary of the properties *)

(** The first form of a query: a location that is not the empty string. *)
Definition locationForm (input : Input.t) : bool :=
  match Input.location input with
  | Some l => JS.truthy l
  | None => false
  end.

(** The second form of a query: latitude and longitude both given. *)
Definition coordinateForm (input : Input.t) : bool :=
  bool_decide (is_Some (Input.lat input)) && bool_decide (is_Some (Input.lon input)).

(** The calendar-day label of a sample, as the daily loop computes it. *)
Definition dayLabel (rt : Runtime) (item : Sample.t) : Result string :=
  format_EEE rt (newDate (Sample.dt item * 1000)).

(** The samples of one day, in list order. *)
Definition dayGroup (rt : Runtime) (day : string) (samples : list Sample.t) : list Sample.t :=
  List.filter (fun item => match dayLabel rt item with
                           | inr d => String.eqb d day
                           | inl _ => false
                           end) samples.

(** The distinct elements of a list, in the order of their first occurrence. *)
Definition firstSeen (l : list string) : list string :=
  fold_left (fun seen x => if bool_decide (x ∈ seen) then seen else seen ++ [x]) l [].

(** The day labels of the samples, in list order. *)
Definition labels (rt : Runtime) (samples : list Sample.t) : list string :=
  flat_map (fun item => match dayLabel rt item with
                        | inr d => [d]
                        | inl _ => []
                        end) samples.

(** The pairwise-averaging fold over the humidities of a group. *)
Definition runningHumidity (hs : list float) : float :=
  fold_left (fun running h => ((running + h) / 2)%float) hs 0%float.

(** The rolling maximum and minimum over the temperatures of a group. *)
Definition rollingMax (ts : list float) : float := fold_left JS.Math_max ts neg_infinity.
Definition rollingMin (ts : list float) : float := fold_left JS.Math_min ts infinity.

(** What the entry under [k] holds once the daily loop has gone through the
    samples [seen]: its own label, the condition of the first sample of the
    day, and the three folds over the samples of the day. *)
Definition aggregated (rt : Runtime) (seen : list Sample.t) (k : string) (v : Daily.t) : Prop :=
  Daily.day v = k
  /\ (exists first main, head (dayGroup rt k seen) = Some first
        /\ head (Sample.weather first) = Some main
        /\ Daily.condition v = mapWeatherCondition main)
  /\ Daily.tempHigh v = rollingMax (map Sample.temp_max (dayGroup rt k seen))
  /\ Daily.tempLow v = rollingMin (map Sample.temp_min (dayGroup rt k seen))
  /\ Daily.humidity v = runningHumidity (map Sample.humidity (dayGroup rt k seen)).

(** The invariant of the daily loop: the keys are the labels seen so far in
    first-seen order, and every entry is the aggregate of its day. *)
Definition dailyInvariant (rt : Runtime) (seen : list Sample.t)
  (dailyForecasts : list (string * Daily.t)) : Prop :=
  map fst dailyForecasts = firstSeen (labels rt seen)
  /\ forall k v, lookupDay k dailyForecasts = Some v -> aggregated rt seen k v.

(** The world after a [fetch] of [url]. *)
Definition fetched (rt : Runtime) (url : string) (w : World) : World :=
  {| now := now w + Z.max 0 (latency (net rt (now w) url));
     weatherCache := weatherCache w;
     requests := requests w ++ [url] |}.

(** The world with another cache. *)
Definition withCache (c : gmap string CacheEntry) (w : World) : World :=
  {| now := now w; weatherCache := c; requests := requests w |}.

(** A computation that leaves the cache alone, only adds to the requests and
    never turns the clock back. *)
Definition frames {A} (m : M A) : Prop :=
  forall w,
    weatherCache (snd (m w)) = weatherCache w
    /\ (exists more, requests (snd (m w)) = requests w ++ more)
    /\ now w <= now (snd (m w)).

(** The last step of [getWeatherData]: the store under the query's key, when
    it has a usable one. *)
Definition cacheStore (rt : Runtime) (input : Input.t) (result : Output.t) : M unit :=
  match usableKey (getCacheKey rt input) with
  | Some key => setCachedWeather key result
  | None => mret tt
  end.

(** The first step of [getWeatherData]: the lookup under the query's key, when
    it has a usable one. *)
Definition cacheLookup (rt : Runtime) (input : Input.t) : M (option Output.t) :=
  match usableKey (getCacheKey rt input) with
  | Some key => getCachedWeather key
  | None => mret None
  end.

(** A string of white space only. *)
Definition blankString (s : string) : Prop :=
  Forall (fun c => JS.isWhiteSpace c = true) (list_ascii_of_string s).

(** What every call keeps true of the cache: no entry under the empty key,
    and no entry that lives longer than five minutes from now. *)
Definition cacheInvariant (w : World) : Prop :=
  forall k entry, weatherCache w !! k = Some entry ->
    k <> EmptyString /\ expiry entry <= now w + CACHE_TTL_MS.

(** Samples in the order of their timestamps, as the provider lists them. *)
Definition chronological (samples : list Sample.t) : Prop :=
  StronglySorted (fun a b => Sample.dt a <= Sample.dt b) samples.

(** ** A mocked runtime for the scenarios *)

Module Mock.

(** Numerals of the coordinates the scenarios use. *)
Definition numeral (x : float) : string :=
  if (x =? 48.85)%float then "48.85"
  else if (x =? 2.35)%float then "2.35"
  else if (x =? 51.5)%float then "51.5"
  else if (x =? -0.12)%float then "-0.12"
  else "0".

(** [h:mm AM] or [h:mm PM] of an instant, in UTC. *)
Definition clock12 (ms : Z) : string :=
  let minutes := (ms / 60000) mod 1440 in
  let h := minutes / 60 in
  let m := minutes mod 60 in
  JS.integerToString (if h mod 12 =? 0 then 12 else h mod 12) +:+ ":"
  +:+ (if m <? 10 then "0" else "") +:+ JS.integerToString m
  +:+ (if h <? 12 then " AM" else " PM").

Definition sample (dt : Z) (main : string) (temp temp_max temp_min humidity : float) : Sample.t :=
  Sample.make dt [main] temp temp_max temp_min humidity 2.5%float.

(** Paris, 2024-06-03 (a Monday) 12:00 UTC: rain at 18.4 degrees. *)
Definition paris : Current.t :=
  Current.make 48.85 2.35 "Paris" ["Rain"%string] 18.4 17.9 72 4.1
               1717386600 1717444200 1717416000.

(** Three samples on Monday, two on Tuesday, one on Wednesday of the week
    after. *)
Definition parisForecast : Forecast.t :=
  Forecast.make 7200
    [sample 1717416000 "Rain" 18.4 10 2 80;
     sample 1717426800 "Clouds" 17 15 (-1) 60;
     sample 1717437600 "Clear" 12 5 4 90;
     sample 1717491600 "Clear" 20 21 11 50;
     sample 1717502400 "Tornado" 22 23.6 12 40;
     sample 1718193600 "Snow" 1 1 0 10].

(** The daily forecast of these samples, and its hourly forecast at [start]. *)
Definition parisDays : list Daily.t :=
  [Daily.make "Mon" (Condition Rainy) 15 (-1) 70;
   Daily.make "Tue" (Condition Sunny) 24 11 33;
   Daily.make "Wed" (Condition Snowy) 1 0 5].

Definition parisHours : list Hourly.t :=
  [Hourly.make "2:00 PM" (Condition Rainy) 18 9 80;
   Hourly.make "5:00 PM" (Condition Cloudy) 17 9 60;
   Hourly.make "8:00 PM" (Condition Sunny) 12 9 90;
   Hourly.make "11:00 AM" (Condition Sunny) 20 9 50;
   Hourly.make "2:00 PM" (Condition Sunny) 22 9 40].

(** The snapshot of Paris. *)
Definition parisSnapshot : Output.t :=
  Output.make "Paris" (Condition Rainy) 18 18 72 15 "5:50 AM" "9:50 PM" "2:00 PM"
              parisDays parisHours.

(** The network answers [status] with a body naming the endpoint. *)
Definition answer (status : Z) (t : Z) (url : string) : Exchange :=
  {| response := Some {| status := status;
                         text := if String.prefix forecastEndpoint url
                                 then "forecast" else "weather" |};
     latency := 120 |}.

Definition readWeather (body : string) : option Current.t :=
  if String.eqb body "weather" then Some paris else None.

Definition readForecast (body : string) : option Forecast.t :=
  if String.eqb body "forecast" then Some parisForecast else None.

(** The runtime whose provider answers every request with [status]. *)
Definition runtime (status : Z) : Runtime :=
  {| Number_toString := numeral;
     Intl_format := clock12;
     localOffset := fun _ => 0;
     OPENWEATHER_API_KEY := "KEY";
     net := answer status;
     JSON_weather := readWeather;
     JSON_forecast := readForecast |}.

(** A fresh process at 2024-06-03 12:00:05 UTC: empty cache, no request yet. *)
Definition start : World :=
  {| now := 1717416005000; weatherCache := ∅; requests := [] |}.

Definition byName (l : string) : Input.t := Input.make (Some l) None None.
Definition byCoordinates (lat lon : float) : Input.t := Input.make None (Some lat) (Some lon).

(** A query in both forms at once. *)
Definition both : Input.t := Input.make (Some "London"%string) (Some 51.5%float) (Some (-0.12)%float).

(** The two requests of a run for Paris, and of a run for [both]. *)
Definition parisRequests : list string :=
  ["https://api.openweathermap.org/data/2.5/weather?q=Paris&appid=KEY&units=metric";
   "https://api.openweathermap.org/data/2.5/forecast?lat=48.85&lon=2.35&appid=KEY&units=metric"]%string.

Definition bothRequests : list string :=
  ["https://api.openweathermap.org/data/2.5/weather?q=London&appid=KEY&units=metric";
   "https://api.openweathermap.org/data/2.5/forecast?lat=51.5&lon=-0.12&appid=KEY&units=metric"]%string.

(** A query whose location is three spaces. *)
Definition blank : Input.t := byName "   ".

Definition blankRequests : list string :=
  ["https://api.openweathermap.org/data/2.5/weather?q=   &appid=KEY&units=metric";
   "https://api.openweathermap.org/data/2.5/forecast?lat=48.85&lon=2.35&appid=KEY&units=metric"]%string.

(** A process whose cache holds a snapshot of Paris that expired a second
    before [start]. *)
Definition stale : World :=
  {| now := 1717416005000;
     weatherCache := {[ "paris"%string := {| data := parisSnapshot; expiry := 1717416004000 |} ]};
     requests := [] |}.

End Mock.

(** * Properties *)

(** ** The monad *)

(** Running a bind: the continuation on a return, the throw kept otherwise. *)
Lemma run_bind {A B} (m : M A) (k : A -> M B) (w : World) :
  (m ≫= k) w = match m w with
               | (inr a, w') => k a w'
               | (inl e, w') => (inl e, w')
               end.
Proof. reflexivity. Qed.

Lemma run_ret {A} (a : A) (w : World) : (mret a : M A) w = (inr a, w).
Proof. reflexivity. Qed.

(** ** Strings *)

Lemma truthy_nonempty (s : string) : JS.truthy s = true <-> s <> EmptyString.
Proof. destruct s; simpl; split; congruence. Qed.

Lemma trimStart_whitespace (s : string) :
  (forall c : ascii, In c (list_ascii_of_string s) -> JS.isWhiteSpace c = true) ->
  JS.trimStart s = EmptyString.
Proof.
  induction s as [|c s IH]; simpl; intros H; [reflexivity|].
  rewrite (H c) by (left; reflexivity).
  apply IH. intros c' Hc'. apply H. right. exact Hc'.
Qed.

Example trim_samples :
  map JS.trim ["  London  "; "New York"; "   "; ""]%string
  = ["London"; "New York"; ""; ""]%string.
Proof. reflexivity. Qed.

Example toLowerCase_samples :
  map JS.toLowerCase ["London"; "SAO PAULO"; "already lower"]%string
  = ["london"; "sao paulo"; "already lower"]%string.
Proof. reflexivity. Qed.

(** ** Numbers *)

Example Math_round_samples :
  map JS.Math_round [18.4; 18.5; -0.5; -2.5; 2.5; 47.5; 0.49999999999999994; -7]%float
  = [18; 19; -0; -2; 3; 48; 0; -7]%float.
Proof. vm_compute. reflexivity. Qed.

Example Math_max_min_samples :
  map (JS.Math_max neg_infinity) [10; -3.5; 0]%float = [10; -3.5; 0]%float
  /\ map (JS.Math_min infinity) [10; -3.5; 0]%float = [10; -3.5; 0]%float
  /\ JS.Math_max (-0) 0 = 0%float /\ JS.Math_min 0 (-0) = (-0)%float
  /\ JS.Math_max 1 nan = nan.
Proof. vm_compute. repeat split; reflexivity. Qed.

Example toFixed_samples :
  map (JS.toFixed (fun _ => "1e+21"%string) 2)
      [51.507; 51.5074; -0.1278; -0.12781; 0; -0; 1.005; 2.5; -0.001; 123456.789;
       1e20; 1e21; -7; 0.005; 0.375; nan; neg_infinity]%float
  = ["51.51"; "51.51"; "-0.13"; "-0.13"; "0.00"; "0.00"; "1.00"; "2.50"; "-0.00";
     "123456.79"; "100000000000000000000.00"; "1e+21"; "-7.00"; "0.01"; "0.38"; "NaN";
     "-Infinity"]%string.
Proof. vm_compute. reflexivity. Qed.

(** The integer formula under [Math.round] and [toFixed]: the quotient is
    [floor (z / 2^k + 1/2)]. *)
Lemma nearest_half_up (z k : Z) :
  0 <= k ->
  2 ^ (k + 1) * ((2 * z + 2 ^ k) / 2 ^ (k + 1)) <= 2 * z + 2 ^ k
  /\ 2 * z + 2 ^ k < 2 ^ (k + 1) * ((2 * z + 2 ^ k) / 2 ^ (k + 1) + 1).
Proof.
  intros Hk. assert (Hpos : 0 < 2 ^ (k + 1)) by (apply Z.pow_pos_nonneg; lia).
  split.
  - apply Z.mul_div_le. exact Hpos.
  - rewrite Z.add_1_r. apply Z.mul_succ_div_gt. exact Hpos.
Qed.

(** [Math.round] on a finite number with a fractional part in its format: the
    result is the integer [r] with [r <= x + 1/2 < r + 1], as a number, or the
    zero of the sign of [x] when that integer is 0. *)
Lemma Math_round_fraction (x : float) (s : bool) (m : positive) (e : Z) :
  Prim2SF x = S754_finite s m e -> e < 0 ->
  exists r : Z,
    2 ^ (- e + 1) * r <= 2 * (if s then Zneg m else Zpos m) + 2 ^ (- e)
    /\ 2 * (if s then Zneg m else Zpos m) + 2 ^ (- e) < 2 ^ (- e + 1) * (r + 1)
    /\ JS.Math_round x
       = if r =? 0 then (if s then (-0)%float else 0%float) else JS.ofZ r.
Proof.
  intros Hx He. unfold JS.Math_round. rewrite Hx.
  destruct (Z.leb_spec 0 e) as [Hle|_]; [lia|].
  eexists. split; [|split; [|reflexivity]]; apply nearest_half_up; lia.
Qed.

(** [Math.round] gives back the numbers that have no fractional part in
    their format, the zeros, the infinities and NaN. *)
Lemma Math_round_integral (x : float) :
  match Prim2SF x with S754_finite _ _ e => 0 <= e | _ => True end ->
  JS.Math_round x = x.
Proof.
  unfold JS.Math_round. destruct (Prim2SF x) as [| | |s m e]; try reflexivity.
  intros He. destruct (Z.leb_spec 0 e); [reflexivity | lia].
Qed.

(** The integer [toFixed] prints: [n] with [n <= |x| * 10^f + 1/2 < n + 1]. *)
Lemma scaledNearest_fraction (f : N) (x : float) (s : bool) (m : positive) (e : Z) :
  Prim2SF x = S754_finite s m e -> e < 0 ->
  2 ^ (- e + 1) * Z.of_N (JS.scaledNearest f x)
  <= 2 * (Zpos m * 10 ^ Z.of_N f) + 2 ^ (- e)
  /\ 2 * (Zpos m * 10 ^ Z.of_N f) + 2 ^ (- e)
     < 2 ^ (- e + 1) * (Z.of_N (JS.scaledNearest f x) + 1).
Proof.
  intros Hx He. unfold JS.scaledNearest. rewrite Hx.
  destruct (Z.leb_spec 0 e) as [Hle|_]; [lia|].
  assert (Hp : 0 < Zpos m * 10 ^ Z.of_N f).
  { apply Z.mul_pos_pos; [lia | apply Z.pow_pos_nonneg; lia]. }
  assert (Hk : 0 < 2 ^ (- e)) by (apply Z.pow_pos_nonneg; lia).
  rewrite Z2N.id; [apply nearest_half_up; lia|].
  apply Z.div_pos; [lia | apply Z.pow_pos_nonneg; lia].
Qed.

(** ** The object of days *)

Lemma lookupDay_None (k : string) (o : list (string * Daily.t)) :
  lookupDay k o = None <-> k ∉ map fst o.
Proof.
  induction o as [|[k' v] o IH]; simpl.
  - split; [intros _; apply not_elem_of_nil | reflexivity].
  - rewrite not_elem_of_cons. destruct (String.eqb_spec k' k) as [->|Hne].
    + split; [discriminate | intros [H _]; congruence].
    + rewrite IH. split; [intros H; split; [congruence | exact H] | intros [_ H]; exact H].
Qed.

Lemma lookupDay_elem (k : string) (v : Daily.t) (o : list (string * Daily.t)) :
  NoDup (map fst o) -> (k, v) ∈ o -> lookupDay k o = Some v.
Proof.
  induction o as [|[k' v'] o IH]; simpl; intros Hnd Hin.
  - apply elem_of_nil in Hin. destruct Hin.
  - apply NoDup_cons in Hnd as [Hk' Hnd].
    apply elem_of_cons in Hin as [Heq|Hin].
    + injection Heq as -> ->. rewrite String.eqb_refl. reflexivity.
    + destruct (String.eqb_spec k' k) as [->|Hne]; [|apply IH; assumption].
      exfalso. apply Hk'. apply list_elem_of_fmap. exists (k, v). split; [reflexivity | exact Hin].
Qed.

Lemma updateDay_keys (k : string) (f : Daily.t -> Daily.t) (o : list (string * Daily.t)) :
  map fst (updateDay k f o) = map fst o.
Proof.
  induction o as [|[k' v] o IH]; simpl; [reflexivity|].
  destruct (String.eqb k' k); simpl; [reflexivity | rewrite IH; reflexivity].
Qed.

Lemma lookupDay_update (k k' : string) (f : Daily.t -> Daily.t) (o : list (string * Daily.t)) :
  lookupDay k' (updateDay k f o)
  = if String.eqb k k' then f <$> lookupDay k' o else lookupDay k' o.
Proof.
  induction o as [|[k0 v] o IH]; simpl.
  - destruct (String.eqb k k'); reflexivity.
  - destruct (String.eqb_spec k0 k) as [->|Hne]; simpl.
    + destruct (String.eqb_spec k k') as [->|Hne']; reflexivity.
    + destruct (String.eqb_spec k0 k') as [->|Hne'].
      * destruct (String.eqb_spec k k') as [->|_]; [congruence | reflexivity].
      * exact IH.
Qed.

Lemma lookupDay_snoc (k k' : string) (v : Daily.t) (o : list (string * Daily.t)) :
  lookupDay k (o ++ [(k', v)])
  = match lookupDay k o with
    | Some x => Some x
    | None => if String.eqb k' k then Some v else None
    end.
Proof.
  induction o as [|[k0 v0] o IH]; simpl; [reflexivity|].
  destruct (String.eqb k0 k); [reflexivity | exact IH].
Qed.

(** ** First-seen order *)

Lemma firstSeen_snoc (l : list string) (x : string) :
  firstSeen (l ++ [x])
  = if bool_decide (x ∈ firstSeen l) then firstSeen l else firstSeen l ++ [x].
Proof. unfold firstSeen. rewrite fold_left_app. reflexivity. Qed.

Lemma firstSeen_elem (l : list string) (x : string) : x ∈ firstSeen l <-> x ∈ l.
Proof.
  induction l as [|y l IH] using rev_ind.
  - reflexivity.
  - rewrite firstSeen_snoc, elem_of_app, list_elem_of_singleton.
    case_bool_decide as Hy.
    + rewrite IH. split; [tauto|]. intros [H| ->]; [exact H | apply IH, Hy].
    + rewrite elem_of_app, list_elem_of_singleton, IH. reflexivity.
Qed.

Lemma firstSeen_NoDup (l : list string) : NoDup (firstSeen l).
Proof.
  induction l as [|y l IH] using rev_ind.
  - apply NoDup_nil_2.
  - rewrite firstSeen_snoc. case_bool_decide as Hy; [exact IH|].
    apply NoDup_app. split; [exact IH|]. split.
    + intros x Hx Hx'. apply list_elem_of_singleton in Hx'. subst. contradiction.
    + apply NoDup_singleton.
Qed.

(** ** The daily loop *)

Section DailyLoop.

Context (rt : Runtime).

Lemma labels_snoc (seen : list Sample.t) (item : Sample.t) (day : string) :
  dayLabel rt item = inr day -> labels rt (seen ++ [item]) = labels rt seen ++ [day].
Proof.
  intros H. unfold labels. rewrite flat_map_app. simpl. rewrite H. reflexivity.
Qed.

Lemma dayGroup_snoc (seen : list Sample.t) (item : Sample.t) (day k : string) :
  dayLabel rt item = inr day ->
  dayGroup rt k (seen ++ [item])
  = dayGroup rt k seen ++ (if String.eqb day k then [item] else []).
Proof.
  intros H. unfold dayGroup. rewrite List.filter_app. simpl. rewrite H.
  destruct (String.eqb day k); reflexivity.
Qed.

Lemma dayGroup_unseen (seen : list Sample.t) (k : string) :
  k ∉ labels rt seen -> dayGroup rt k seen = [].
Proof.
  induction seen as [|item seen IH]; simpl; intros Hk; [reflexivity|].
  apply not_elem_of_app in Hk as [Hitem Hseen].
  destruct (dayLabel rt item) as [e|d]; [apply IH, Hseen|].
  destruct (String.eqb_spec d k) as [->|_]; [|apply IH, Hseen].
  exfalso. apply Hitem. apply list_elem_of_singleton. reflexivity.
Qed.

Lemma rollingMax_snoc (ts : list float) (t : float) :
  rollingMax (ts ++ [t]) = JS.Math_max (rollingMax ts) t.
Proof. unfold rollingMax. rewrite fold_left_app. reflexivity. Qed.

Lemma rollingMin_snoc (ts : list float) (t : float) :
  rollingMin (ts ++ [t]) = JS.Math_min (rollingMin ts) t.
Proof. unfold rollingMin. rewrite fold_left_app. reflexivity. Qed.

Lemma runningHumidity_snoc (hs : list float) (h : float) :
  runningHumidity (hs ++ [h]) = ((runningHumidity hs + h) / 2)%float.
Proof. unfold runningHumidity. rewrite fold_left_app. reflexivity. Qed.

(** One more sample of the day folded into its entry. *)
Lemma aggregated_accumulate (seen : list Sample.t) (item : Sample.t)
  (k : string) (v : Daily.t) :
  dayLabel rt item = inr k ->
  aggregated rt seen k v ->
  aggregated rt (seen ++ [item]) k (accumulate item v).
Proof.
  intros Hday (Hk & (first & main & Hfirst & Hmain & Hcond) & Hhigh & Hlow & Hhum).
  unfold aggregated.
  rewrite (dayGroup_snoc _ _ _ _ Hday), String.eqb_refl, !map_app. simpl.
  rewrite rollingMax_snoc, rollingMin_snoc, runningHumidity_snoc, Hhigh, Hlow, Hhum.
  split; [exact Hk|]. split; [|done].
  exists first, main. split; [|done].
  destruct (dayGroup rt k seen); [discriminate | exact Hfirst].
Qed.

(** A sample of another day leaves the entry as it is. *)
Lemma aggregated_other (seen : list Sample.t) (item : Sample.t)
  (day k : string) (v : Daily.t) :
  dayLabel rt item = inr day -> day <> k ->
  aggregated rt seen k v -> aggregated rt (seen ++ [item]) k v.
Proof.
  intros Hday Hne H. unfold aggregated.
  rewrite (dayGroup_snoc _ _ _ _ Hday).
  destruct (String.eqb_spec day k) as [->|_]; [congruence|].
  rewrite app_nil_r. exact H.
Qed.

(** The entry of a day at its first sample. *)
Lemma aggregated_first (seen : list Sample.t) (item : Sample.t)
  (k main : string) :
  dayLabel rt item = inr k -> k ∉ labels rt seen ->
  weather0_main (Sample.weather item) = inr main ->
  aggregated rt (seen ++ [item]) k
    (accumulate item (Daily.make k (mapWeatherCondition main) neg_infinity infinity 0%float)).
Proof.
  intros Hday Hnew Hmain. unfold aggregated.
  rewrite (dayGroup_snoc _ _ _ _ Hday), String.eqb_refl, (dayGroup_unseen _ _ Hnew).
  simpl. split; [done|]. split; [|done].
  exists item, main. split; [done|]. split; [|done].
  destruct (Sample.weather item); simpl in *; congruence.
Qed.

Lemma dailyStep_invariant (seen : list Sample.t) (item : Sample.t)
  (o o' : list (string * Daily.t)) :
  dailyStep rt o item = inr o' ->
  dailyInvariant rt seen o -> dailyInvariant rt (seen ++ [item]) o'.
Proof.
  unfold dailyStep. fold (dayLabel rt item).
  destruct (dayLabel rt item) as [e|day] eqn:Hday; [discriminate|].
  intros Hstep [Hkeys Hentries]. simpl in Hstep.
  destruct (lookupDay day o) as [v0|] eqn:Hlook; simpl in Hstep.
  - injection Hstep as <-. split.
    + rewrite updateDay_keys, (labels_snoc _ _ _ Hday), firstSeen_snoc.
      rewrite bool_decide_true; [exact Hkeys|].
      rewrite <- Hkeys. destruct (decide (day ∈ map fst o)) as [Hin|Hout]; [exact Hin|].
      apply lookupDay_None in Hout. congruence.
    + intros k v. rewrite lookupDay_update.
      destruct (String.eqb_spec day k) as [<-|Hne].
      * rewrite Hlook. simpl. intros [= <-].
        apply aggregated_accumulate; [exact Hday | apply Hentries, Hlook].
      * intros Hk. eapply aggregated_other; [exact Hday | exact Hne | apply Hentries, Hk].
  - destruct (weather0_main (Sample.weather item)) as [e|main] eqn:Hmain; [discriminate|].
    simpl in Hstep. injection Hstep as <-.
    assert (Hnew : day ∉ labels rt seen).
    { rewrite <- firstSeen_elem, <- Hkeys. apply lookupDay_None, Hlook. }
    split.
    + rewrite updateDay_keys, map_app, (labels_snoc _ _ _ Hday), firstSeen_snoc. simpl.
      rewrite bool_decide_false; [by rewrite Hkeys | by rewrite firstSeen_elem].
    + intros k v. rewrite lookupDay_update, lookupDay_snoc.
      destruct (String.eqb_spec day k) as [<-|Hne].
      * rewrite Hlook. simpl. intros [= <-]. by apply aggregated_first.
      * destruct (lookupDay k o) as [v1|] eqn:Hk; [|discriminate].
        intros [= <-]. eapply aggregated_other; [exact Hday | exact Hne | apply Hentries, Hk].
Qed.

Lemma dailyLoop_invariant (items seen : list Sample.t)
  (o o' : list (string * Daily.t)) :
  dailyLoop rt o items = inr o' ->
  dailyInvariant rt seen o -> dailyInvariant rt (seen ++ items) o'.
Proof.
  revert seen o. induction items as [|item items IH]; intros seen o; simpl.
  - intros [= <-]. rewrite app_nil_r. done.
  - destruct (dailyStep rt o item) as [e|o1] eqn:Hstep; [discriminate|]. simpl.
    intros Hloop Hinv.
    replace (seen ++ item :: items) with ((seen ++ [item]) ++ items)
      by (rewrite <- app_assoc; reflexivity).
    eapply IH; [exact Hloop|]. eapply dailyStep_invariant; [exact Hstep | exact Hinv].
Qed.

Lemma weekdays_nth (n : nat) : nth n weekdays "Sun"%string ∈ weekdays.
Proof.
  do 7 (destruct n as [|n]; [apply list_elem_of_In; simpl; tauto|]).
  apply list_elem_of_In. destruct n; simpl; tauto.
Qed.

Lemma dayLabel_weekday (item : Sample.t) (day : string) :
  dayLabel rt item = inr day -> day ∈ weekdays.
Proof.
  unfold dayLabel, format_EEE. destruct (newDate _) as [ms|]; [|discriminate].
  intros H. injection H as H. rewrite <- H. exact (weekdays_nth _).
Qed.

Lemma labels_weekdays (samples : list Sample.t) (k : string) :
  k ∈ labels rt samples -> k ∈ weekdays.
Proof.
  unfold labels. intros Hk. apply list_elem_of_In, in_flat_map in Hk as (item & _ & Hk).
  destruct (dayLabel rt item) as [e|day] eqn:Hday; simpl in Hk; [tauto|].
  destruct Hk as [<-|[]]. eapply dayLabel_weekday, Hday.
Qed.

(** There are seven weekday names, so the days never number more than seven
    and [slice(0, 7)] keeps all of them. *)
Lemma firstSeen_labels_length (samples : list Sample.t) :
  (length (firstSeen (labels rt samples)) <= 7)%nat.
Proof.
  change 7%nat with (length weekdays). apply submseteq_length, NoDup_submseteq.
  - apply firstSeen_NoDup.
  - intros k Hk. eapply labels_weekdays. apply firstSeen_elem, Hk.
Qed.

Lemma dailyInvariant_start : dailyInvariant rt [] [].
Proof. split; [reflexivity | discriminate]. Qed.

(** What [forecastOf] returns, when it returns: the rounded aggregates of the
    days, in first-seen order. *)
Lemma forecastOf_inv (samples : list Sample.t) (forecast : list Daily.t) :
  forecastOf rt samples = inr forecast ->
  exists o, dailyLoop rt [] samples = inr o
            /\ dailyInvariant rt samples o
            /\ forecast = map roundDay (map snd o).
Proof.
  unfold forecastOf. destruct (dailyLoop rt [] samples) as [e|o] eqn:Hloop; [discriminate|].
  simpl. intros [= <-]. exists o.
  pose proof (dailyLoop_invariant samples [] [] o Hloop dailyInvariant_start) as Hinv.
  simpl in Hinv. split; [reflexivity|]. split; [exact Hinv|].
  rewrite take_ge; [reflexivity|].
  destruct Hinv as [Hkeys _].
  rewrite length_map, <- (length_map fst), Hkeys. apply firstSeen_labels_length.
Qed.

Lemma forecastOf_entry (samples : list Sample.t) (forecast : list Daily.t)
  (d : Daily.t) :
  forecastOf rt samples = inr forecast -> d ∈ forecast ->
  exists v, d = roundDay v /\ aggregated rt samples (Daily.day d) v.
Proof.
  intros H Hd. apply forecastOf_inv in H as (o & _ & [Hkeys Hentries] & ->).
  apply list_elem_of_fmap in Hd as (v & -> & Hv).
  apply list_elem_of_fmap in Hv as ([k v'] & -> & Hkv). simpl.
  exists v'. split; [reflexivity|].
  assert (Hlook : lookupDay k o = Some v').
  { apply lookupDay_elem; [|exact Hkv]. rewrite Hkeys. apply firstSeen_NoDup. }
  pose proof (Hentries _ _ Hlook) as Hagg.
  destruct Hagg as [Hday ?]. rewrite Hday. apply Hentries, Hlook.
Qed.

Lemma forecastOf_days (samples : list Sample.t) (forecast : list Daily.t) :
  forecastOf rt samples = inr forecast ->
  map Daily.day forecast = firstSeen (labels rt samples).
Proof.
  intros H. apply forecastOf_inv in H as (o & _ & [Hkeys Hentries] & ->).
  rewrite <- Hkeys, !map_map. apply map_ext_in. intros [k v] Hkv. simpl.
  assert (Hlook : lookupDay k o = Some v).
  { apply lookupDay_elem; [|apply list_elem_of_In, Hkv]. rewrite Hkeys. apply firstSeen_NoDup. }
  apply Hentries in Hlook as [Hday _]. exact Hday.
Qed.

(** The daily loop returns on a list whose samples all carry a valid date and
    a weather entry. *)
Lemma dailyLoop_returns (items : list Sample.t) (o : list (string * Daily.t)) :
  (forall item, item ∈ items ->
     newDate (Sample.dt item * 1000) <> None /\ Sample.weather item <> []) ->
  exists o', dailyLoop rt o items = inr o'.
Proof.
  revert o. induction items as [|item items IH]; intros o Hok; simpl; [by exists o|].
  destruct (Hok item) as [Hdate Hweather]; [by left|].
  unfold dailyStep, format_EEE.
  destruct (newDate (Sample.dt item * 1000)) as [ms|]; [|congruence]. simpl.
  destruct (Sample.weather item) as [|main rest] eqn:Hw; [congruence|].
  destruct (lookupDay _ o); simpl; apply IH; intros i Hi; apply Hok; by right.
Qed.

Lemma forecastOf_returns (samples : list Sample.t) :
  (forall item, item ∈ samples ->
     newDate (Sample.dt item * 1000) <> None /\ Sample.weather item <> []) ->
  exists forecast, forecastOf rt samples = inr forecast.
Proof.
  intros Hok. destruct (dailyLoop_returns samples [] Hok) as [o Ho].
  unfold forecastOf. rewrite Ho. simpl. eauto.
Qed.

Lemma dailyLoop_labelled (items : list Sample.t) (o o' : list (string * Daily.t)) :
  dailyLoop rt o items = inr o' ->
  forall item, item ∈ items -> exists day, dayLabel rt item = inr day.
Proof.
  revert o. induction items as [|i items IH]; intros o H item Hin.
  - apply elem_of_nil in Hin. destruct Hin.
  - simpl in H. destruct (dailyStep rt o i) as [e|o1] eqn:Hstep; [discriminate|].
    apply elem_of_cons in Hin as [->|Hin]; [|eapply IH; eassumption].
    unfold dailyStep in Hstep. fold (dayLabel rt i) in Hstep.
    destruct (dayLabel rt i) as [e|day]; [discriminate | eauto].
Qed.

(** Every sample's day is one of the days of the forecast. *)
Lemma forecastOf_covers (samples : list Sample.t) (forecast : list Daily.t)
  (item : Sample.t) :
  forecastOf rt samples = inr forecast -> item ∈ samples ->
  exists d, d ∈ forecast /\ dayLabel rt item = inr (Daily.day d).
Proof.
  intros H Hin. pose proof (forecastOf_days _ _ H) as Hdays.
  apply forecastOf_inv in H as (o & Hloop & _ & _).
  destruct (dailyLoop_labelled _ _ _ Hloop item Hin) as [day Hday].
  assert (Hk : day ∈ map Daily.day forecast).
  { rewrite Hdays. apply firstSeen_elem. unfold labels.
    apply list_elem_of_In, in_flat_map. exists item.
    split; [apply list_elem_of_In, Hin|]. rewrite Hday. left. reflexivity. }
  apply list_elem_of_fmap in Hk as (d & -> & Hd). eauto.
Qed.

End DailyLoop.

(** ** Zero and the first sample *)

(** Adding to [+0] gives the number back, except for [-0]. *)
Lemma zero_add (h : float) : h <> (-0)%float -> (0 + h)%float = h.
Proof.
  intros Hh. apply Prim2SF_inj. rewrite add_spec.
  change (Prim2SF 0) with (S754_zero false).
  destruct (Prim2SF h) as [[|]| | |] eqn:E; try reflexivity.
  exfalso. apply Hh, Prim2SF_inj. rewrite E. reflexivity.
Qed.

Lemma sameValueZero_refl (x : float) : JS.sameValueZero x x = true.
Proof. unfold JS.sameValueZero, is_nan. destruct (x =? x)%float; reflexivity. Qed.

Lemma negative_zero_cases (h : float) : h = (-0)%float \/ h <> (-0)%float.
Proof.
  destruct (Prim2SF h) as [[|]| | |] eqn:E;
    try (right; intros ->; vm_compute in E; discriminate).
  left. apply Prim2SF_inj. rewrite E. reflexivity.
Qed.

(** ** The claims on the daily aggregation *)

(** C3. On samples that all carry a valid date and a weather entry the daily
    aggregation returns. Whenever it returns, every sample's day has an
    entry, and the humidity of every entry is the pairwise-averaging fold
    (running := (running + h) / 2, from 0) over the humidities of that day's
    samples in list order, rounded by [Math.round]. The fold depends on the
    order and is not the mean: 10 then 90 gives 48, 90 then 10 gives 28. *)
Theorem C3_daily_humidity (rt : Runtime) (samples : list Sample.t) :
  ((forall item, item ∈ samples ->
      newDate (Sample.dt item * 1000) <> None /\ Sample.weather item <> []) ->
   exists forecast, forecastOf rt samples = inr forecast)
  /\ (forall forecast,
        forecastOf rt samples = inr forecast ->
        (forall item, item ∈ samples ->
           exists d, d ∈ forecast /\ dayLabel rt item = inr (Daily.day d))
        /\ (forall d, d ∈ forecast ->
              Daily.humidity d
              = JS.Math_round
                  (runningHumidity
                     (map Sample.humidity (dayGroup rt (Daily.day d) samples)))))
  /\ JS.Math_round (runningHumidity [10; 90]%float) = 48%float
  /\ JS.Math_round (runningHumidity [90; 10]%float) = 28%float.
Proof.
  split; [apply forecastOf_returns|]. split; [|split; vm_compute; reflexivity].
  intros forecast H. split.
  - intros item Hin. eapply forecastOf_covers; eassumption.
  - intros d Hd.
    destruct (forecastOf_entry _ _ _ _ H Hd) as (v & -> & _ & _ & _ & _ & Hhum).
    simpl in *. rewrite Hhum. reflexivity.
Qed.

(** The Paris forecast: Monday's 80, 60, 90 give 70 (the mean is 77), and
    Tuesday's 50, 40 give 33 (the mean is 45). *)
Lemma C3_daily_humidity_witness :
  forecastOf (Mock.runtime 200) (Forecast.list Mock.parisForecast) = inr Mock.parisDays
  /\ map Daily.humidity Mock.parisDays = [70; 33; 5]%float
  /\ (forall d, d ∈ Mock.parisDays ->
        Daily.humidity d
        = JS.Math_round
            (runningHumidity
               (map Sample.humidity
                    (dayGroup (Mock.runtime 200) (Daily.day d)
                              (Forecast.list Mock.parisForecast))))).
Proof.
  assert (H : forecastOf (Mock.runtime 200) (Forecast.list Mock.parisForecast)
              = inr Mock.parisDays) by (vm_compute; reflexivity).
  split; [exact H|]. split; [reflexivity|].
  exact (proj2 (proj1 (proj2 (C3_daily_humidity (Mock.runtime 200)
                                (Forecast.list Mock.parisForecast))) Mock.parisDays H)).
Defined.

(** C5. On samples that all carry a valid date and a weather entry the daily
    aggregation returns. Whenever it returns, the days of the forecast are
    the first seven distinct day labels of the samples in first-seen order;
    each day's high is the rolling maximum, from negative infinity, of its
    samples' maxima, and its low the rolling minimum, from positive infinity,
    of their minima, both rounded by [Math.round]. A day with maxima 10, 15, 5
    has high 15; a day with minima 2, -1, 4 has low -1. *)
Theorem C5_daily_high_low (rt : Runtime) (samples : list Sample.t) :
  ((forall item, item ∈ samples ->
      newDate (Sample.dt item * 1000) <> None /\ Sample.weather item <> []) ->
   exists forecast, forecastOf rt samples = inr forecast)
  /\ (forall forecast,
        forecastOf rt samples = inr forecast ->
        map Daily.day forecast = take 7 (firstSeen (labels rt samples))
        /\ (forall d, d ∈ forecast ->
              let group := dayGroup rt (Daily.day d) samples in
              Daily.tempHigh d = JS.Math_round (rollingMax (map Sample.temp_max group))
              /\ Daily.tempLow d = JS.Math_round (rollingMin (map Sample.temp_min group))
              /\ (map Sample.temp_max group = [10; 15; 5]%float ->
                  Daily.tempHigh d = 15%float)
              /\ (map Sample.temp_min group = [2; -1; 4]%float ->
                  Daily.tempLow d = (-1)%float))).
Proof.
  split; [apply forecastOf_returns|]. intros forecast H. split.
  - rewrite (forecastOf_days _ _ _ H), take_ge; [reflexivity|].
    apply firstSeen_labels_length.
  - intros d Hd group.
    destruct (forecastOf_entry _ _ _ _ H Hd) as (v & -> & _ & _ & Hhigh & Hlow & _).
    simpl in *. fold group in Hhigh, Hlow. rewrite Hhigh, Hlow.
    repeat split; intros ->; vm_compute; reflexivity.
Qed.

(** The Paris forecast: Monday has maxima 10, 15, 5 and minima 2, -1, 4. *)
Lemma C5_daily_high_low_witness :
  forecastOf (Mock.runtime 200) (Forecast.list Mock.parisForecast) = inr Mock.parisDays
  /\ map Daily.day Mock.parisDays = ["Mon"; "Tue"; "Wed"]%string
  /\ map Daily.tempHigh Mock.parisDays = [15; 24; 1]%float
  /\ map Daily.tempLow Mock.parisDays = [-1; 11; 0]%float
  /\ map Daily.day Mock.parisDays
     = take 7 (firstSeen (labels (Mock.runtime 200) (Forecast.list Mock.parisForecast))).
Proof.
  assert (H : forecastOf (Mock.runtime 200) (Forecast.list Mock.parisForecast)
              = inr Mock.parisDays) by (vm_compute; reflexivity).
  repeat (split; [reflexivity|]).
  exact (proj1 (proj2 (C5_daily_high_low (Mock.runtime 200)
                         (Forecast.list Mock.parisForecast)) Mock.parisDays H)).
Defined.

(** C9. The running humidity starts at 0 and the averaging step is applied to
    the first sample too: a day with the single sample of humidity [h] has
    humidity [Math.round((0 + h) / 2)], which is [Math.round(h / 2)] (as
    numbers; as values too unless [h] is the negative zero, for which the
    code gives [+0] and [Math.round(h / 2)] is [-0]). *)
Theorem C9_single_sample_day (rt : Runtime) (samples : list Sample.t)
  (forecast : list Daily.t) (d : Daily.t) (item : Sample.t) :
  forecastOf rt samples = inr forecast ->
  d ∈ forecast ->
  dayGroup rt (Daily.day d) samples = [item] ->
  Daily.humidity d = JS.Math_round ((0 + Sample.humidity item) / 2)%float
  /\ JS.sameValueZero (Daily.humidity d) (JS.Math_round (Sample.humidity item / 2)%float) = true
  /\ (Sample.humidity item <> (-0)%float ->
      Daily.humidity d = JS.Math_round (Sample.humidity item / 2)%float).
Proof.
  intros H Hd Hgroup.
  destruct (forecastOf_entry _ _ _ _ H Hd) as (v & -> & _ & _ & _ & _ & Hhum).
  simpl in *. rewrite Hgroup in Hhum. rewrite Hhum. simpl. unfold runningHumidity. simpl.
  split; [reflexivity|].
  destruct (negative_zero_cases (Sample.humidity item)) as [-> | Hnz].
  - split; [vm_compute; reflexivity | intros Hn; exfalso; apply Hn; reflexivity].
  - rewrite (zero_add _ Hnz). split; [apply sameValueZero_refl | reflexivity].
Qed.

(** The Paris forecast: Wednesday has one sample, of humidity 10, and the
    forecast gives it humidity 5. *)
Lemma C9_single_sample_day_witness :
  forecastOf (Mock.runtime 200) (Forecast.list Mock.parisForecast) = inr Mock.parisDays
  /\ Daily.humidity (Daily.make "Wed" (Condition Snowy) 1 0 5) = 5%float
  /\ Daily.humidity (Daily.make "Wed" (Condition Snowy) 1 0 5)
     = JS.Math_round (10 / 2)%float.
Proof.
  assert (H : forecastOf (Mock.runtime 200) (Forecast.list Mock.parisForecast)
              = inr Mock.parisDays) by (vm_compute; reflexivity).
  split; [exact H|]. split; [reflexivity|].
  refine (proj2 (proj2 (C9_single_sample_day (Mock.runtime 200)
            (Forecast.list Mock.parisForecast) Mock.parisDays
            (Daily.make "Wed" (Condition Snowy) 1 0 5)
            (Mock.sample 1718193600 "Snow" 1 1 0 10) H _ _)) _).
  - apply list_elem_of_In. simpl. tauto.
  - vm_compute. reflexivity.
  - intros E. vm_compute in E. discriminate.
Defined.

(** ** Frames: what the flow cannot touch *)

Lemma frames_ret {A} (a : A) : frames (mret a : M A).
Proof. intros w. simpl. split; [reflexivity|]. split; [exists []; by rewrite app_nil_r | lia]. Qed.

Lemma frames_throw {A} (e : Exn) : frames (throw e : M A).
Proof. intros w. simpl. split; [reflexivity|]. split; [exists []; by rewrite app_nil_r | lia]. Qed.

Lemma frames_lift {A} (r : Result A) : frames (lift r).
Proof. intros w. simpl. split; [reflexivity|]. split; [exists []; by rewrite app_nil_r | lia]. Qed.

Lemma frames_Date_now : frames Date_now.
Proof. intros w. simpl. split; [reflexivity|]. split; [exists []; by rewrite app_nil_r | lia]. Qed.

Lemma frames_fetch (rt : Runtime) (url : string) : frames (fetch rt url).
Proof.
  intros w. unfold fetch. destruct (response _); simpl;
    (split; [reflexivity|]; split; [by exists [url] | lia]).
Qed.

Lemma frames_bind {A B} (m : M A) (k : A -> M B) :
  frames m -> (forall a, frames (k a)) -> frames (m ≫= k).
Proof.
  intros Hm Hk w. rewrite run_bind.
  destruct (Hm w) as (Hc & [more Hr] & Ht). destruct (m w) as [[e|a] w1]; simpl in *.
  - split; [exact Hc|]. split; [by exists more | exact Ht].
  - destruct (Hk a w1) as (Hc' & [more' Hr'] & Ht').
    split; [congruence|]. split; [|lia].
    exists (more ++ more'). rewrite Hr', Hr, app_assoc. reflexivity.
Qed.

Ltac frames_step :=
  first
    [ apply frames_ret | apply frames_throw | apply frames_lift
    | apply frames_Date_now | apply frames_fetch
    | apply frames_bind; [|intros ?]
    | match goal with
      | |- frames (if ?b then _ else _) => destruct b
      end ].

Lemma flowBody_frames (rt : Runtime) (input : Input.t) : frames (flowBody rt input).
Proof. unfold flowBody. repeat (cbv zeta; frames_step). Qed.

Lemma getWeatherDataFlow_frames (rt : Runtime) (input : Input.t) :
  frames (getWeatherDataFlow rt input).
Proof.
  unfold getWeatherDataFlow. destruct (GetWeatherDataInputSchema input).
  - apply frames_bind; [apply flowBody_frames|]. intros o. frames_step; frames_step.
  - apply frames_throw.
Qed.

(** ** The two forms of a query *)

Lemma refinement_forms (input : Input.t) :
  refinement input = locationForm input || coordinateForm input.
Proof. reflexivity. Qed.

(** The guard of the body stops the queries the refinement describes. *)
Lemma weatherUrlOf_refused (rt : Runtime) (input : Input.t) :
  locationForm input || coordinateForm input = false ->
  weatherUrlOf rt input = inl (Error validationMessage).
Proof.
  unfold weatherUrlOf, locationForm, coordinateForm.
  destruct input as [[l|] [la|] [lo|]]; simpl; try destruct (JS.truthy l); simpl;
    congruence.
Qed.

Lemma weatherUrlOf_forms (rt : Runtime) (input : Input.t) :
  locationForm input || coordinateForm input = true <->
  exists url, weatherUrlOf rt input = inr url.
Proof.
  unfold weatherUrlOf, locationForm, coordinateForm.
  destruct input as [[l|] [la|] [lo|]]; simpl; try destruct (JS.truthy l); simpl;
    split; eauto; try discriminate; intros [url H]; discriminate.
Qed.

Lemma getCacheKey_forms (rt : Runtime) (input : Input.t) :
  locationForm input || coordinateForm input = false -> getCacheKey rt input = None.
Proof.
  unfold getCacheKey, locationForm, coordinateForm.
  destruct input as [[l|] [la|] [lo|]]; simpl; try destruct (JS.truthy l); simpl;
    congruence.
Qed.

(** ** The steps of [getWeatherData] *)

Lemma getCachedWeather_run (key : string) (w : World) :
  getCachedWeather key w
  = match weatherCache w !! key with
    | None => (inr None, w)
    | Some cached =>
        if expiry cached <=? now w
        then (inr None, withCache (delete key (weatherCache w)) w)
        else (inr (Some (data cached)), w)
    end.
Proof.
  unfold getCachedWeather. rewrite run_bind. unfold Map_get.
  destruct (weatherCache w !! key) as [cached|]; [|reflexivity].
  rewrite run_bind. unfold Date_now. destruct (expiry cached <=? now w); reflexivity.
Qed.

Lemma setCachedWeather_run (key : string) (value : Output.t) (w : World) :
  setCachedWeather key value w
  = (inr tt, withCache (<[key := {| data := value; expiry := now w + CACHE_TTL_MS |}]>
                          (weatherCache w)) w).
Proof. reflexivity. Qed.

(** [getWeatherData] is the lookup, then on a miss the flow and, on its
    success only, the store. *)
Lemma getWeatherData_run (rt : Runtime) (input : Input.t) (w : World) :
  getWeatherData rt input w
  = match cacheLookup rt input w with
    | (inr (Some cached), w1) => (inr cached, w1)
    | (inr None, w1) =>
        match getWeatherDataFlow rt input w1 with
        | (inr result, w2) => (inr result, snd (cacheStore rt input result w2))
        | (inl e, w2) => (inl e, w2)
        end
    | (inl e, w1) => (inl e, w1)
    end.
Proof.
  unfold getWeatherData, cacheLookup, cacheStore. rewrite run_bind.
  destruct (usableKey (getCacheKey rt input)) as [key|].
  - destruct (getCachedWeather key w) as [[e|[cached|]] w1]; reflexivity.
  - rewrite run_ret, run_bind.
    destruct (getWeatherDataFlow rt input w) as [[e|result] w2]; reflexivity.
Qed.

(** The lookup never throws; it returns a live entry's snapshot and leaves the
    world as it is, or returns nothing and has at most dropped the query's
    own expired entry. *)
Lemma cacheLookup_run (rt : Runtime) (input : Input.t) (w : World) :
  cacheLookup rt input w
  = match usableKey (getCacheKey rt input) with
    | None => (inr None, w)
    | Some key =>
        match weatherCache w !! key with
        | None => (inr None, w)
        | Some cached =>
            if expiry cached <=? now w
            then (inr None, withCache (delete key (weatherCache w)) w)
            else (inr (Some (data cached)), w)
        end
    end.
Proof.
  unfold cacheLookup. destruct (usableKey _); [apply getCachedWeather_run | reflexivity].
Qed.

Lemma cacheLookup_world (rt : Runtime) (input : Input.t) (w : World) :
  now (snd (cacheLookup rt input w)) = now w
  /\ requests (snd (cacheLookup rt input w)) = requests w
  /\ (forall k v, weatherCache (snd (cacheLookup rt input w)) !! k = Some v ->
                  weatherCache w !! k = Some v).
Proof.
  rewrite cacheLookup_run. destruct (usableKey _) as [key|]; [|done].
  destruct (weatherCache w !! key) as [cached|]; [|done].
  destruct (expiry cached <=? now w); [|done]. simpl.
  split; [reflexivity|]. split; [reflexivity|].
  intros k v Hk. apply lookup_delete_Some in Hk as [_ Hk]. exact Hk.
Qed.

(** ** The flow *)

(** A query with a coordinate that is no number is refused by the schema. *)
Lemma getWeatherDataFlow_schema (rt : Runtime) (input : Input.t) (w : World) :
  GetWeatherDataInputSchema input = false ->
  getWeatherDataFlow rt input w = (inl (ValidationError schemaMessage), w).
Proof. intros H. unfold getWeatherDataFlow. rewrite H. reflexivity. Qed.

(** A query in neither form is refused: by the schema when a coordinate is no
    number, by the guard of the body otherwise. *)
Lemma getWeatherDataFlow_refused (rt : Runtime) (input : Input.t) (w : World) :
  locationForm input || coordinateForm input = false ->
  getWeatherDataFlow rt input w
  = (inl (if GetWeatherDataInputSchema input then Error validationMessage
          else ValidationError schemaMessage), w).
Proof.
  intros H. unfold getWeatherDataFlow.
  destruct (GetWeatherDataInputSchema input); [|reflexivity].
  rewrite run_bind. unfold flowBody. rewrite run_bind. unfold lift at 1.
  rewrite (weatherUrlOf_refused rt input H). reflexivity.
Qed.

(** The world the flow leaves is the one its body leaves. *)
Lemma getWeatherDataFlow_world (rt : Runtime) (input : Input.t) (w : World) :
  GetWeatherDataInputSchema input = true ->
  snd (getWeatherDataFlow rt input w) = snd (flowBody rt input w).
Proof.
  intros H. unfold getWeatherDataFlow. rewrite H, run_bind.
  destruct (flowBody rt input w) as [[e|o] w1]; [reflexivity|].
  destruct (GetWeatherDataOutputSchema o); reflexivity.
Qed.

(** A throw of the body is the throw of the flow. *)
Lemma getWeatherDataFlow_throws (rt : Runtime) (input : Input.t) (w w' : World) (e : Exn) :
  GetWeatherDataInputSchema input = true ->
  flowBody rt input w = (inl e, w') ->
  getWeatherDataFlow rt input w = (inl e, w').
Proof.
  intros H Hbody. unfold getWeatherDataFlow. rewrite H, run_bind, Hbody.
  reflexivity.
Qed.

(** The body starts with the request for the current weather. *)
Lemma flowBody_first_request (rt : Runtime) (input : Input.t) (w : World) (url : string) :
  weatherUrlOf rt input = inr url ->
  exists more, requests (snd (flowBody rt input w)) = requests w ++ url :: more.
Proof.
  intros Hurl. unfold flowBody. rewrite run_bind. unfold lift at 1. rewrite Hurl, run_bind.
  match goal with |- context [fetch rt url w] => 
    assert (Hw : snd (fetch rt url w) = fetched rt url w)
      by (unfold fetch, fetched; destruct (response _); reflexivity)
  end.
  destruct (fetch rt url w) as [[e|r] w1]; simpl in Hw; subst w1.
  - exists []. reflexivity.
  - match goal with |- context [snd (?k (fetched rt url w))] =>
      assert (Hk : frames k) by (repeat (cbv zeta; frames_step))
    end.
    match goal with Hk : frames ?k |- _ =>
      destruct (Hk (fetched rt url w)) as (_ & [more Hmore] & _)
    end.
    exists more. rewrite Hmore. simpl. rewrite <- app_assoc. reflexivity.
Qed.

(** A current-weather response that is not ok ends the body there. *)
Lemma flowBody_weather_failure (rt : Runtime) (input : Input.t) (w : World)
  (url : string) (r : Response) :
  weatherUrlOf rt input = inr url ->
  response (net rt (now w) url) = Some r ->
  ok r = false ->
  flowBody rt input w = (inl (weatherFailure r), fetched rt url w).
Proof.
  intros Hurl Hr Hok. unfold flowBody. rewrite run_bind. unfold lift at 1.
  rewrite Hurl, run_bind. unfold fetch at 1. rewrite Hr, run_bind, Hok. reflexivity.
Qed.

(** A forecast response that is not ok ends the body there. *)
Lemma flowBody_forecast_failure (rt : Runtime) (input : Input.t) (w : World)
  (url : string) (r r' : Response) (d : Current.t) :
  weatherUrlOf rt input = inr url ->
  response (net rt (now w) url) = Some r ->
  ok r = true ->
  JSON_weather rt (text r) = Some d ->
  response (net rt (now (fetched rt url w)) (forecastUrlOf rt input d)) = Some r' ->
  ok r' = false ->
  flowBody rt input w
  = (inl (forecastFailure r'), fetched rt (forecastUrlOf rt input d) (fetched rt url w)).
Proof.
  intros Hurl Hr Hok Hd Hr' Hok'. unfold flowBody. rewrite run_bind. unfold lift at 1.
  rewrite Hurl, run_bind. unfold fetch at 1. rewrite Hr, run_bind, Hok, run_ret, run_bind.
  unfold lift at 1. rewrite Hd, run_bind. unfold fetch at 1.
  change (now {| now := now w + Z.max 0 (latency (net rt (now w) url));
                 weatherCache := weatherCache w;
                 requests := requests w ++ [url] |})
    with (now (fetched rt url w)).
  rewrite Hr', run_bind, Hok'. reflexivity.
Qed.

Lemma cacheStore_world (rt : Runtime) (input : Input.t) (result : Output.t) (w : World) :
  now (snd (cacheStore rt input result w)) = now w
  /\ requests (snd (cacheStore rt input result w)) = requests w.
Proof. unfold cacheStore. destruct (usableKey _); split; reflexivity. Qed.

(** A non-empty location decides the first request, whatever else is given. *)
Lemma weatherUrlOf_location (rt : Runtime) (input : Input.t) (l : string) :
  Input.location input = Some l -> l <> EmptyString ->
  weatherUrlOf rt input
  = inr (weatherEndpoint +:+ "?q=" +:+ l +:+ "&appid=" +:+ OPENWEATHER_API_KEY rt
         +:+ "&units=metric").
Proof.
  intros Hl Hne. unfold weatherUrlOf. rewrite Hl.
  apply truthy_nonempty in Hne. rewrite Hne. reflexivity.
Qed.

(** ** Scenarios on the mocked runtime *)

(** A fresh process asked for Paris: two requests, 240 milliseconds, the
    snapshot returned and stored under "paris" for five minutes. *)
Example paris_first_call :
  getWeatherData (Mock.runtime 200) (Mock.byName "Paris") Mock.start
  = (inr Mock.parisSnapshot,
     {| now := 1717416005240;
        weatherCache := {[ "paris"%string :=
                             {| data := Mock.parisSnapshot; expiry := 1717416305240 |} ]};
        requests := Mock.parisRequests |}).
Proof. vm_compute. reflexivity. Qed.

(** Asked again, in another spelling, four minutes later: the stored snapshot,
    and no request. *)
Example paris_second_call :
  getWeatherData (Mock.runtime 200) (Mock.byName " PARIS ")
    {| now := 1717416245240;
       weatherCache := {[ "paris"%string :=
                            {| data := Mock.parisSnapshot; expiry := 1717416305240 |} ]};
       requests := Mock.parisRequests |}
  = (inr Mock.parisSnapshot,
     {| now := 1717416245240;
        weatherCache := {[ "paris"%string :=
                             {| data := Mock.parisSnapshot; expiry := 1717416305240 |} ]};
        requests := Mock.parisRequests |}).
Proof. vm_compute. reflexivity. Qed.

(** An expired entry is dropped, fetched again and stored with a new expiry. *)
Example paris_after_expiry :
  getWeatherData (Mock.runtime 200) (Mock.byName "Paris") Mock.stale
  = (inr Mock.parisSnapshot,
     {| now := 1717416005240;
        weatherCache := {[ "paris"%string :=
                             {| data := Mock.parisSnapshot; expiry := 1717416305240 |} ]};
        requests := Mock.parisRequests |}).
Proof. vm_compute. reflexivity. Qed.

(** ** The claims on validation and failure *)

(** C1, as the code has it. A call fails before any request in two cases. A
    query with neither a non-empty location nor both coordinates is stopped
    with the world as it was, no request and no change to the cache: by the
    guard of the body, with its error, when the coordinate it may carry is a
    number, by the schema otherwise. A query with a coordinate that is no
    number sends no request either: it is answered from the cache or refused
    by the schema. Every other query is accepted, a query in both forms
    included: it is answered from the cache or the request for the current
    weather is issued, by name whenever the location is non-empty. *)
Theorem C1_validation (rt : Runtime) (input : Input.t) (w : World) :
  (locationForm input || coordinateForm input = false ->
     getWeatherData rt input w
     = (inl (if GetWeatherDataInputSchema input then Error validationMessage
             else ValidationError schemaMessage), w))
  /\ (GetWeatherDataInputSchema input = false ->
        requests (snd (getWeatherData rt input w)) = requests w
        /\ ((exists cached, getWeatherData rt input w = (inr cached, w))
            \/ getWeatherData rt input w
               = (inl (ValidationError schemaMessage), snd (cacheLookup rt input w))))
  /\ (locationForm input || coordinateForm input = true ->
      GetWeatherDataInputSchema input = true ->
        (exists cached, getWeatherData rt input w = (inr cached, w))
        \/ (exists url more,
              weatherUrlOf rt input = inr url
              /\ requests (snd (getWeatherData rt input w)) = requests w ++ url :: more))
  /\ (forall l, Input.location input = Some l -> l <> EmptyString ->
        weatherUrlOf rt input
        = inr (weatherEndpoint +:+ "?q=" +:+ l +:+ "&appid=" +:+ OPENWEATHER_API_KEY rt
               +:+ "&units=metric")).
Proof.
  split; [|split; [|split]].
  - intros H. rewrite getWeatherData_run, cacheLookup_run, (getCacheKey_forms _ _ H).
    simpl. rewrite (getWeatherDataFlow_refused _ _ _ H). reflexivity.
  - intros H. rewrite getWeatherData_run.
    pose proof (cacheLookup_world rt input w) as (_ & Hreq & _).
    pose proof (cacheLookup_run rt input w) as Hrun.
    destruct (cacheLookup rt input w) as [[e|[cached|]] w1] eqn:Hl; simpl in *.
    + destruct (usableKey _) as [key|]; [|discriminate].
      destruct (weatherCache w !! key) as [c|]; [|discriminate].
      destruct (expiry c <=? now w); discriminate.
    + split; [exact Hreq|]. left. exists cached. f_equal.
      destruct (usableKey _) as [key|]; [|discriminate].
      destruct (weatherCache w !! key) as [c|]; [|discriminate].
      destruct (expiry c <=? now w); congruence.
    + rewrite (getWeatherDataFlow_schema _ _ _ H). simpl.
      split; [exact Hreq|]. right. reflexivity.
  - intros H Hs. destruct (proj1 (weatherUrlOf_forms rt input) H) as [url Hurl].
    rewrite getWeatherData_run.
    pose proof (cacheLookup_world rt input w) as (Hnow & Hreq & _).
    pose proof (cacheLookup_run rt input w) as Hrun.
    destruct (cacheLookup rt input w) as [[e|[cached|]] w1] eqn:Hl; simpl in *.
    + destruct (usableKey _) as [key|]; [|discriminate].
      destruct (weatherCache w !! key) as [c|]; [|discriminate].
      destruct (expiry c <=? now w); discriminate.
    + left. exists cached. f_equal.
      destruct (usableKey _) as [key|]; [|discriminate].
      destruct (weatherCache w !! key) as [c|]; [|discriminate].
      destruct (expiry c <=? now w); congruence.
    + right. exists url.
      destruct (flowBody_first_request rt input w1 url Hurl) as [more Hmore].
      exists more. split; [exact Hurl|].
      rewrite <- (getWeatherDataFlow_world _ _ _ Hs) in Hmore.
      destruct (getWeatherDataFlow rt input w1) as [[e|result] w2]; simpl in *.
      * congruence.
      * rewrite (proj2 (cacheStore_world rt input result w2)). congruence.
  - intros l. apply weatherUrlOf_location.
Qed.

(** On the mocked runtime: the empty query and a query with a latitude only
    are stopped by the guard of the body with the world as it was; a query
    whose latitude is NaN is refused by the schema and sends no request. *)
Lemma C1_validation_witness :
  getWeatherData (Mock.runtime 200) (Input.make None None None) Mock.start
  = (inl (Error validationMessage), Mock.start)
  /\ getWeatherData (Mock.runtime 200) (Input.make None (Some 1%float) None) Mock.start
     = (inl (Error validationMessage), Mock.start)
  /\ (requests (snd (getWeatherData (Mock.runtime 200)
                       (Input.make None (Some nan) (Some 0%float)) Mock.start))
      = requests Mock.start
      /\ fst (getWeatherData (Mock.runtime 200)
                (Input.make None (Some nan) (Some 0%float)) Mock.start)
         = inl (ValidationError schemaMessage)).
Proof.
  split; [|split].
  - exact (proj1 (C1_validation (Mock.runtime 200) (Input.make None None None) Mock.start)
             eq_refl).
  - exact (proj1 (C1_validation (Mock.runtime 200) (Input.make None (Some 1%float) None)
                    Mock.start) eq_refl).
  - split.
    + exact (proj1 (proj1 (proj2 (C1_validation (Mock.runtime 200)
                                    (Input.make None (Some nan) (Some 0%float)) Mock.start))
                      eq_refl)).
    + vm_compute. reflexivity.
Defined.

(** A query carrying a location and a full pair of coordinates is not refused:
    both requests go out and a snapshot comes back. *)
Lemma C1_counterexample :
  Input.location Mock.both = Some "London"%string
  /\ Input.lat Mock.both = Some 51.5%float
  /\ Input.lon Mock.both = Some (-0.12)%float
  /\ fst (getWeatherData (Mock.runtime 200) Mock.both Mock.start) = inr Mock.parisSnapshot
  /\ requests (snd (getWeatherData (Mock.runtime 200) Mock.both Mock.start))
     = Mock.bothRequests.
Proof. repeat split; vm_compute; reflexivity. Qed.

(** C8, as the code has it. On every failing call the cache gains nothing:
    it is the cache the lookup left, which holds only entries it held
    before (the lookup may have dropped the query's own expired entry). After
    a miss, a current-weather response that is not ok makes the call throw
    the error built from its status and body, and so does a forecast response
    that is not ok; no snapshot is returned. (A query the schema refuses asks
    the provider nothing: its call throws the refusal.) *)
Theorem C8_failure_paths (rt : Runtime) (input : Input.t) (w : World) :
  (forall e w', getWeatherData rt input w = (inl e, w') ->
     weatherCache w' = weatherCache (snd (cacheLookup rt input w))
     /\ forall k v, weatherCache w' !! k = Some v -> weatherCache w !! k = Some v)
  /\ (forall url r,
        fst (cacheLookup rt input w) = inr None ->
        weatherUrlOf rt input = inr url ->
        response (net rt (now w) url) = Some r ->
        ok r = false ->
        fst (getWeatherData rt input w)
        = if GetWeatherDataInputSchema input
          then inl (Error ("OpenWeather API request failed with status "
                           +:+ JS.integerToString (status r) +:+ ": " +:+ text r))
          else inl (ValidationError schemaMessage))
  /\ (forall url r d r',
        fst (cacheLookup rt input w) = inr None ->
        weatherUrlOf rt input = inr url ->
        response (net rt (now w) url) = Some r ->
        ok r = true ->
        JSON_weather rt (text r) = Some d ->
        response (net rt (now w + Z.max 0 (latency (net rt (now w) url)))
                      (forecastUrlOf rt input d)) = Some r' ->
        ok r' = false ->
        fst (getWeatherData rt input w)
        = if GetWeatherDataInputSchema input
          then inl (Error ("OpenWeather Forecast API request failed with status "
                           +:+ JS.integerToString (status r') +:+ ": " +:+ text r'))
          else inl (ValidationError schemaMessage)).
Proof.
  pose proof (cacheLookup_world rt input w) as (Hnow & Hreq & Hsub).
  split; [|split].
  - intros e w'. rewrite getWeatherData_run.
    destruct (cacheLookup rt input w) as [[e1|[cached|]] w1] eqn:Hl; simpl in *.
    + rewrite cacheLookup_run in Hl. destruct (usableKey _) as [key|]; [|discriminate].
      destruct (weatherCache w !! key) as [c|]; [|discriminate].
      destruct (expiry c <=? now w); discriminate.
    + discriminate.
    + pose proof (getWeatherDataFlow_frames rt input w1) as (Hcache & _ & _).
      destruct (getWeatherDataFlow rt input w1) as [[e2|result] w2]; [|discriminate].
      simpl in Hcache. intros [= <- <-]. split; [exact Hcache|].
      intros k v. rewrite Hcache. apply Hsub.
  - intros url r Hmiss Hurl Hr Hok. rewrite getWeatherData_run.
    destruct (cacheLookup rt input w) as [res w1]. simpl in *. subst res.
    rewrite <- Hnow in Hr.
    destruct (GetWeatherDataInputSchema input) eqn:Hs.
    + rewrite (getWeatherDataFlow_throws rt input w1 _ _ Hs
                 (flowBody_weather_failure rt input w1 url r Hurl Hr Hok)).
      reflexivity.
    + rewrite (getWeatherDataFlow_schema _ _ _ Hs). reflexivity.
  - intros url r d r' Hmiss Hurl Hr Hok Hd Hr' Hok'. rewrite getWeatherData_run.
    destruct (cacheLookup rt input w) as [res w1]. simpl in *. subst res.
    rewrite <- Hnow in Hr, Hr'.
    destruct (GetWeatherDataInputSchema input) eqn:Hs.
    + rewrite (getWeatherDataFlow_throws rt input w1 _ _ Hs
                 (flowBody_forecast_failure rt input w1 url r r' d Hurl Hr Hok Hd Hr' Hok')).
      reflexivity.
    + rewrite (getWeatherDataFlow_schema _ _ _ Hs). reflexivity.
Qed.

(** The provider answers 500 to a fresh process asking for Paris. *)
Lemma C8_failure_paths_witness :
  fst (cacheLookup (Mock.runtime 500) (Mock.byName "Paris") Mock.start) = inr None
  /\ fst (getWeatherData (Mock.runtime 500) (Mock.byName "Paris") Mock.start)
     = inl (Error "OpenWeather API request failed with status 500: weather").
Proof.
  split; [reflexivity|].
  refine (proj1 (proj2 (C8_failure_paths (Mock.runtime 500) (Mock.byName "Paris") Mock.start))
            _ {| status := 500; text := "weather" |} _ _ _ _);
    vm_compute; reflexivity.
Defined.

(** The cache holds an expired snapshot of Paris and the provider answers 500:
    the call fails, and the cache is not what it was, the entry is gone. *)
Lemma C8_counterexample :
  weatherCache Mock.stale !! "paris"%string
  = Some {| data := Mock.parisSnapshot; expiry := 1717416004000 |}
  /\ fst (getWeatherData (Mock.runtime 500) (Mock.byName "Paris") Mock.stale)
     = inl (Error "OpenWeather API request failed with status 500: weather")
  /\ weatherCache (snd (getWeatherData (Mock.runtime 500) (Mock.byName "Paris") Mock.stale))
       !! "paris"%string = None
  /\ weatherCache (snd (getWeatherData (Mock.runtime 500) (Mock.byName "Paris") Mock.stale))
     <> weatherCache Mock.stale.
Proof.
  assert (Hgone : weatherCache (snd (getWeatherData (Mock.runtime 500) (Mock.byName "Paris")
                                       Mock.stale)) !! "paris"%string = None)
    by (vm_compute; reflexivity).
  split; [vm_compute; reflexivity|]. split; [vm_compute; reflexivity|].
  split; [exact Hgone|].
  intros Heq. rewrite Heq in Hgone. vm_compute in Hgone. discriminate.
Qed.

(** ** The claims on the cache *)

(** What [getWeatherData] does on a miss. *)
Lemma getWeatherData_miss (rt : Runtime) (input : Input.t) (w w1 : World) (key : string) :
  usableKey (getCacheKey rt input) = Some key ->
  cacheLookup rt input w = (inr None, w1) ->
  getWeatherData rt input w
  = match getWeatherDataFlow rt input w1 with
    | (inr result, w2) =>
        (inr result,
         withCache (<[key := {| data := result; expiry := now w2 + CACHE_TTL_MS |}]>
                      (weatherCache w2)) w2)
    | (inl e, w2) => (inl e, w2)
    end.
Proof.
  intros Hkey Hl. rewrite getWeatherData_run, Hl. unfold cacheStore. rewrite Hkey.
  destruct (getWeatherDataFlow rt input w1) as [[e|result] w2]; reflexivity.
Qed.

(** C2. [put] stores the snapshot with expiry = put time + 5 minutes, whatever
    the key held before, and touches no other key. While the clock is
    strictly before the expiry, [get] returns exactly the stored snapshot and
    changes nothing; from the expiry on, [get] removes the entry and reports
    nothing, and a request whose key this is runs the flow on the world
    without the entry and stores what the flow returns. *)
Theorem C2_cache_ttl (key : string) (value : Output.t) (w : World) :
  CACHE_TTL_MS = 5 * 60 * 1000
  /\ setCachedWeather key value w
     = (inr tt, withCache (<[key := {| data := value; expiry := now w + 300000 |}]>
                             (weatherCache w)) w)
  /\ weatherCache (snd (setCachedWeather key value w)) !! key
     = Some {| data := value; expiry := now w + 300000 |}
  /\ (forall k, k <> key ->
        weatherCache (snd (setCachedWeather key value w)) !! k = weatherCache w !! k)
  /\ (forall w' : World,
        weatherCache w' !! key = Some {| data := value; expiry := now w + 300000 |} ->
        (now w' < now w + 300000 -> getCachedWeather key w' = (inr (Some value), w'))
        /\ (now w + 300000 <= now w' ->
            getCachedWeather key w'
            = (inr None, withCache (delete key (weatherCache w')) w')
            /\ forall rt input,
                usableKey (getCacheKey rt input) = Some key ->
                getWeatherData rt input w'
                = match getWeatherDataFlow rt input
                          (withCache (delete key (weatherCache w')) w') with
                  | (inr result, w2) =>
                      (inr result,
                       withCache (<[key := {| data := result;
                                              expiry := now w2 + CACHE_TTL_MS |}]>
                                    (weatherCache w2)) w2)
                  | (inl e, w2) => (inl e, w2)
                  end)).
Proof.
  split; [reflexivity|]. split; [reflexivity|].
  split; [apply lookup_insert_eq|].
  split; [intros k Hk; simpl; by rewrite lookup_insert_ne|].
  intros w' Hentry.
  assert (Hget : getCachedWeather key w'
                 = if now w + 300000 <=? now w'
                   then (inr None, withCache (delete key (weatherCache w')) w')
                   else (inr (Some value), w')).
  { rewrite getCachedWeather_run, Hentry. reflexivity. }
  split.
  - intros Hlt. rewrite Hget. destruct (Z.leb_spec (now w + 300000) (now w')); [lia|done].
  - intros Hge.
    assert (Hexp : (now w + 300000 <=? now w') = true) by (apply Z.leb_le; exact Hge).
    rewrite Hexp in Hget. split; [exact Hget|].
    intros rt input Hkey. apply getWeatherData_miss; [exact Hkey|].
    unfold cacheLookup. rewrite Hkey. exact Hget.
Qed.

(** A snapshot of Paris put at [start], read a minute and then five minutes
    later. *)
Lemma C2_cache_ttl_witness :
  getCachedWeather "paris"
    {| now := 1717416065000;
       weatherCache := {[ "paris"%string :=
                            {| data := Mock.parisSnapshot; expiry := 1717416305000 |} ]};
       requests := [] |}
  = (inr (Some Mock.parisSnapshot),
     {| now := 1717416065000;
        weatherCache := {[ "paris"%string :=
                             {| data := Mock.parisSnapshot; expiry := 1717416305000 |} ]};
        requests := [] |})
  /\ fst (getCachedWeather "paris"
            {| now := 1717416305000;
               weatherCache := {[ "paris"%string :=
                                    {| data := Mock.parisSnapshot;
                                       expiry := 1717416305000 |} ]};
               requests := [] |})
     = inr None.
Proof.
  split.
  - refine (proj1 (proj2 (proj2 (proj2 (proj2
              (C2_cache_ttl "paris" Mock.parisSnapshot Mock.start))))
              {| now := 1717416065000;
                 weatherCache := {[ "paris"%string :=
                                      {| data := Mock.parisSnapshot;
                                         expiry := 1717416305000 |} ]};
                 requests := [] |} _) _).
    + apply lookup_singleton_eq.
    + simpl. lia.
  - refine (f_equal fst (proj1 (proj2 (proj2 (proj2 (proj2 (proj2
              (C2_cache_ttl "paris" Mock.parisSnapshot Mock.start))))
              {| now := 1717416305000;
                 weatherCache := {[ "paris"%string :=
                                      {| data := Mock.parisSnapshot;
                                         expiry := 1717416305000 |} ]};
                 requests := [] |} _) _))).
    + apply lookup_singleton_eq.
    + simpl. lia.
Defined.

(** A location of white space only trims to the empty string. *)
Lemma trim_whitespace (l : string) :
  Forall (fun c => JS.isWhiteSpace c = true) (list_ascii_of_string l) ->
  JS.trim l = EmptyString.
Proof.
  intros H. unfold JS.trim. rewrite trimStart_whitespace; [reflexivity|].
  intros c Hc. rewrite Forall_forall in H. apply H, list_elem_of_In, Hc.
Qed.

(** C10. A query whose location is a non-empty string of white space has the
    empty string for its key, and the empty string is no key to
    [getWeatherData]: the call is the flow and nothing else, whatever the
    cache holds and however recent the last call was. The cache stays as it
    was, and the request for the current weather goes out (unless the query
    also carries a coordinate that is no number: the schema then refuses it,
    with the world as it was). *)
Theorem C10_whitespace_location (rt : Runtime) (input : Input.t) (l : string) (w : World) :
  Input.location input = Some l ->
  l <> EmptyString ->
  Forall (fun c => JS.isWhiteSpace c = true) (list_ascii_of_string l) ->
  getCacheKey rt input = Some EmptyString
  /\ getWeatherData rt input w = getWeatherDataFlow rt input w
  /\ weatherCache (snd (getWeatherData rt input w)) = weatherCache w
  /\ if GetWeatherDataInputSchema input
     then exists more,
            requests (snd (getWeatherData rt input w))
            = requests w ++ (weatherEndpoint +:+ "?q=" +:+ l +:+ "&appid="
                             +:+ OPENWEATHER_API_KEY rt +:+ "&units=metric") :: more
     else getWeatherData rt input w = (inl (ValidationError schemaMessage), w).
Proof.
  intros Hl Hne Hws.
  assert (Hkey : getCacheKey rt input = Some EmptyString).
  { unfold getCacheKey. rewrite Hl, (proj2 (truthy_nonempty l) Hne), (trim_whitespace l Hws).
    reflexivity. }
  assert (Hflow : getWeatherData rt input w = getWeatherDataFlow rt input w).
  { rewrite getWeatherData_run. unfold cacheLookup, cacheStore. rewrite Hkey. simpl.
    destruct (getWeatherDataFlow rt input w) as [[e|result] w2]; reflexivity. }
  split; [exact Hkey|]. split; [exact Hflow|]. rewrite Hflow. split.
  - apply getWeatherDataFlow_frames.
  - destruct (GetWeatherDataInputSchema input) eqn:Hs.
    + rewrite (getWeatherDataFlow_world _ _ _ Hs). apply flowBody_first_request.
      apply weatherUrlOf_location; assumption.
    + apply getWeatherDataFlow_schema, Hs.
Qed.

(** Three spaces for a location, asked twice in a row: the second call, 240
    milliseconds after the first succeeded, sends both requests again. *)
Lemma C10_whitespace_location_witness :
  fst (getWeatherData (Mock.runtime 200) Mock.blank Mock.start) = inr Mock.parisSnapshot
  /\ requests (snd (getWeatherData (Mock.runtime 200) Mock.blank
                      (snd (getWeatherData (Mock.runtime 200) Mock.blank Mock.start))))
     = Mock.blankRequests ++ Mock.blankRequests
  /\ getCacheKey (Mock.runtime 200) Mock.blank = Some EmptyString
  /\ weatherCache (snd (getWeatherData (Mock.runtime 200) Mock.blank
                          (snd (getWeatherData (Mock.runtime 200) Mock.blank Mock.start))))
     = weatherCache (snd (getWeatherData (Mock.runtime 200) Mock.blank Mock.start)).
Proof.
  split; [vm_compute; reflexivity|]. split; [vm_compute; reflexivity|].
  assert (Hws : Forall (fun c => JS.isWhiteSpace c = true) (list_ascii_of_string "   ")).
  { repeat constructor. }
  pose proof (C10_whitespace_location (Mock.runtime 200) Mock.blank "   "
                (snd (getWeatherData (Mock.runtime 200) Mock.blank Mock.start))
                eq_refl ltac:(discriminate) Hws) as (Hkey & _ & Hcache & _).
  split; [exact Hkey | exact Hcache].
Defined.

(** A store under a key serves every query of that key until the expiry. *)
Lemma getWeatherData_hit (rt : Runtime) (input : Input.t) (key : string) (entry : CacheEntry)
  (w : World) :
  usableKey (getCacheKey rt input) = Some key ->
  weatherCache w !! key = Some entry ->
  now w < expiry entry ->
  getWeatherData rt input w = (inr (data entry), w).
Proof.
  intros Hkey Hentry Hlive. rewrite getWeatherData_run, cacheLookup_run, Hkey, Hentry.
  destruct (Z.leb_spec (expiry entry) (now w)); [lia | reflexivity].
Qed.

(** After a call that ran the flow and returned, the snapshot is stored under
    the query's key, to expire five minutes after the return. *)
Lemma getWeatherData_stores (rt : Runtime) (input : Input.t) (key : string)
  (w w1 : World) (s : Output.t) :
  usableKey (getCacheKey rt input) = Some key ->
  getWeatherData rt input w = (inr s, w1) ->
  requests w1 <> requests w ->
  weatherCache w1 !! key = Some {| data := s; expiry := now w1 + CACHE_TTL_MS |}.
Proof.
  intros Hkey Hrun Hran. rewrite getWeatherData_run in Hrun.
  pose proof (cacheLookup_run rt input w) as Hl. rewrite Hkey in Hl.
  destruct (cacheLookup rt input w) as [[e|[cached|]] w0]; [discriminate| |].
  - injection Hrun as <- <-.
    destruct (weatherCache w !! key) as [c|]; [|discriminate].
    destruct (expiry c <=? now w); [discriminate|]. injection Hl as _ ->. congruence.
  - unfold cacheStore in Hrun. rewrite Hkey in Hrun.
    destruct (getWeatherDataFlow rt input w0) as [[e|result] w2]; [discriminate|].
    injection Hrun as <- <-. simpl. apply lookup_insert_eq.
Qed.

(** Two queries of one key: once the first has run the flow and returned,
    the second is answered by the same snapshot, with no request, as long as
    the clock is within five minutes of the first one's return. *)
Lemma getWeatherData_shared (rt : Runtime) (a b : Input.t) (key : string)
  (w w1 w2 : World) (s : Output.t) :
  usableKey (getCacheKey rt a) = Some key ->
  usableKey (getCacheKey rt b) = Some key ->
  getWeatherData rt a w = (inr s, w1) ->
  requests w1 <> requests w ->
  weatherCache w2 = weatherCache w1 ->
  now w2 < now w1 + CACHE_TTL_MS ->
  getWeatherData rt b w2 = (inr s, w2).
Proof.
  intros Ha Hb Hrun Hran Hcache Hlive.
  pose proof (getWeatherData_stores rt a key w w1 s Ha Hrun Hran) as Hentry.
  rewrite <- Hcache in Hentry.
  exact (getWeatherData_hit rt b key _ w2 Hb Hentry Hlive).
Qed.

(** C6, as the code has it. A non-empty location gives the key: the location
    trimmed and in lower case, so "  London  " gives "london". Without one,
    latitude and longitude give the key: each through [toFixed(2)], joined by
    a colon. The pairs (51.507, -0.1278) and (51.5074, -0.12781) both give
    "51.51:-0.13", and once either query has run the flow and returned, the
    other is answered from the cache, with no request, within five minutes. *)
Theorem C6_cache_key (rt : Runtime) :
  (forall input l, Input.location input = Some l -> l <> EmptyString ->
     getCacheKey rt input = Some (JS.toLowerCase (JS.trim l)))
  /\ getCacheKey rt (Mock.byName "  London  ") = Some "london"%string
  /\ (forall input lat lon,
        locationForm input = false ->
        Input.lat input = Some lat -> Input.lon input = Some lon ->
        getCacheKey rt input
        = Some (JS.toFixed (Number_toString rt) 2 lat +:+ ":"
                +:+ JS.toFixed (Number_toString rt) 2 lon))
  /\ getCacheKey rt (Mock.byCoordinates 51.507 (-0.1278)) = Some "51.51:-0.13"%string
  /\ getCacheKey rt (Mock.byCoordinates 51.5074 (-0.12781)) = Some "51.51:-0.13"%string
  /\ (forall a b w w1 w2 s,
        (a = Mock.byCoordinates 51.507 (-0.1278) /\ b = Mock.byCoordinates 51.5074 (-0.12781)
         \/ a = Mock.byCoordinates 51.5074 (-0.12781) /\ b = Mock.byCoordinates 51.507 (-0.1278)) ->
        getWeatherData rt a w = (inr s, w1) ->
        requests w1 <> requests w ->
        weatherCache w2 = weatherCache w1 ->
        now w2 < now w1 + CACHE_TTL_MS ->
        getWeatherData rt b w2 = (inr s, w2)).
Proof.
  split; [|split; [|split; [|split; [|split]]]].
  - intros input l Hl Hne. unfold getCacheKey.
    rewrite Hl, (proj2 (truthy_nonempty l) Hne). reflexivity.
  - reflexivity.
  - intros input lat lon Hloc Hlat Hlon. unfold getCacheKey, locationForm in *.
    rewrite Hlat, Hlon. destruct (Input.location input) as [l|]; [|reflexivity].
    rewrite Hloc. reflexivity.
  - vm_compute. reflexivity.
  - vm_compute. reflexivity.
  - intros a b w w1 w2 s Hab.
    apply (getWeatherData_shared rt a b "51.51:-0.13");
      destruct Hab as [[-> ->]|[-> ->]]; vm_compute; reflexivity.
Qed.

(** On the mocked runtime: Paris by name, and the first pair of coordinates
    served from the cache filled by the second. *)
Lemma C6_cache_key_witness :
  getCacheKey (Mock.runtime 200) (Mock.byName "Paris") = Some "paris"%string
  /\ getCacheKey (Mock.runtime 200) (Mock.byCoordinates 48.85 2.35) = Some "48.85:2.35"%string
  /\ fst (getWeatherData (Mock.runtime 200) (Mock.byCoordinates 51.5074 (-0.12781)) Mock.start)
     = inr Mock.parisSnapshot
  /\ getWeatherData (Mock.runtime 200) (Mock.byCoordinates 51.507 (-0.1278))
       (snd (getWeatherData (Mock.runtime 200) (Mock.byCoordinates 51.5074 (-0.12781))
               Mock.start))
     = (inr Mock.parisSnapshot,
        snd (getWeatherData (Mock.runtime 200) (Mock.byCoordinates 51.5074 (-0.12781))
               Mock.start)).
Proof.
  pose proof (C6_cache_key (Mock.runtime 200)) as (Hname & _ & Hcoord & _ & _ & Hshare).
  split; [exact (Hname (Mock.byName "Paris") "Paris"%string eq_refl ltac:(discriminate))|].
  split; [exact (Hcoord (Mock.byCoordinates 48.85 2.35) _ _ eq_refl eq_refl eq_refl)|].
  split; [vm_compute; reflexivity|].
  apply (Hshare (Mock.byCoordinates 51.5074 (-0.12781)) (Mock.byCoordinates 51.507 (-0.1278))
                Mock.start
                (snd (getWeatherData (Mock.runtime 200) (Mock.byCoordinates 51.5074 (-0.12781))
                        Mock.start))).
  - right. split; reflexivity.
  - vm_compute. reflexivity.
  - vm_compute. discriminate.
  - reflexivity.
  - vm_compute. reflexivity.
Defined.

(** The empty string is a location string, and it gives no key; with
    coordinates beside it, it gives their key, not its own trimmed self. *)
Lemma C6_counterexample :
  getCacheKey (Mock.runtime 200) (Mock.byName "") = None
  /\ getCacheKey (Mock.runtime 200) (Input.make (Some ""%string) (Some 1%float) (Some 2%float))
     = Some "1.00:2.00"%string
  /\ JS.toLowerCase (JS.trim "") = ""%string.
Proof. repeat split; vm_compute; reflexivity. Qed.

(** ** The claims on the hourly forecast and the condition table *)

Lemma mapResult_Forall2 {A B} (f : A -> Result B) (xs : list A) (ys : list B) :
  mapResult f xs = inr ys -> Forall2 (fun x y => f x = inr y) xs ys.
Proof.
  revert ys. induction xs as [|x xs IH]; intros ys; simpl.
  - intros [= <-]. constructor.
  - destruct (f x) as [e|y] eqn:Hx; [discriminate|]. simpl.
    destruct (mapResult f xs) as [e|ys'] eqn:Hxs; [discriminate|]. simpl.
    intros [= <-]. constructor; [exact Hx | apply IH; reflexivity].
Qed.

Lemma mapResult_returns {A B} (f : A -> Result B) (xs : list A) :
  (forall x, x ∈ xs -> exists y, f x = inr y) -> exists ys, mapResult f xs = inr ys.
Proof.
  induction xs as [|x xs IH]; intros H; simpl; [by exists []|].
  destruct (H x) as [y Hy]; [by left|]. rewrite Hy. simpl.
  destruct IH as [ys Hys]; [intros x' Hx'; apply H; by right|].
  rewrite Hys. simpl. by exists (y :: ys).
Qed.

Lemma withinDay_le (limit : Z) (h : Sample.t) :
  withinDay (newDate limit) h = true -> Sample.dt h * 1000 <= limit.
Proof.
  unfold withinDay, newDate, Date_le.
  destruct (Z.abs (Sample.dt h * 1000) <=? 8640000000000000); [|discriminate].
  destruct (Z.abs limit <=? 8640000000000000); [|discriminate].
  apply Z.leb_le.
Qed.

(** What a returning body went through: two ok responses, both read, and the
    three transformations at the clock of its last world. *)
Lemma flowBody_returns_inv (rt : Runtime) (input : Input.t) (w w' : World) (out : Output.t) :
  flowBody rt input w = (inr out, w') ->
  exists url r d r' fd hourly forecast,
    weatherUrlOf rt input = inr url
    /\ response (net rt (now w) url) = Some r /\ ok r = true
    /\ JSON_weather rt (text r) = Some d
    /\ response (net rt (now (fetched rt url w)) (forecastUrlOf rt input d)) = Some r'
    /\ ok r' = true
    /\ JSON_forecast rt (text r') = Some fd
    /\ w' = fetched rt (forecastUrlOf rt input d) (fetched rt url w)
    /\ hourlyOf rt (Forecast.timezone fd) (now w') (Forecast.list fd) = inr hourly
    /\ forecastOf rt (Forecast.list fd) = inr forecast
    /\ transform rt d (Forecast.timezone fd) forecast hourly = inr out.
Proof.
  unfold flowBody. rewrite run_bind. unfold lift at 1.
  destruct (weatherUrlOf rt input) as [e|url]; [discriminate|].
  rewrite run_bind. unfold fetch at 1.
  destruct (response (net rt (now w) url)) as [r|] eqn:Hr; [|discriminate].
  fold (fetched rt url w). rewrite run_bind.
  destruct (ok r) eqn:Hok; [|discriminate]. rewrite run_ret, run_bind. unfold lift at 1.
  destruct (JSON_weather rt (text r)) as [d|] eqn:Hd; [|discriminate].
  rewrite run_bind. unfold fetch at 1.
  destruct (response (net rt (now (fetched rt url w)) (forecastUrlOf rt input d)))
    as [r'|] eqn:Hr'; [|discriminate].
  fold (fetched rt (forecastUrlOf rt input d) (fetched rt url w)). rewrite run_bind.
  destruct (ok r') eqn:Hok'; [|discriminate]. rewrite run_ret, run_bind. unfold lift at 1.
  destruct (JSON_forecast rt (text r')) as [fd|] eqn:Hfd; [|discriminate].
  cbv zeta. rewrite run_bind. unfold Date_now at 1. rewrite run_bind. unfold lift at 1.
  destruct (hourlyOf rt _ _ _) as [e|hourly] eqn:Hhourly; [discriminate|].
  rewrite run_bind. unfold lift at 1.
  destruct (forecastOf rt _) as [e|forecast] eqn:Hforecast; [discriminate|].
  unfold lift. destruct (transform rt d _ forecast hourly) as [e|out'] eqn:Hout; [discriminate|].
  intros [= <- <-]. exists url, r, d, r', fd, hourly, forecast. repeat split; assumption.
Qed.

Lemma transform_hourly (rt : Runtime) (d : Current.t) (tz : Z) (forecast : list Daily.t)
  (hourly : list Hourly.t) (out : Output.t) :
  transform rt d tz forecast hourly = inr out ->
  Output.hourly out = hourly /\ Output.forecast out = forecast.
Proof.
  unfold transform. destruct (weather0_main _) as [e|main]; [discriminate|].
  simpl. intros [= <-]. split; reflexivity.
Qed.

(** C4. The hourly forecast is the map over [kept]: the samples passing the
    date filter (a date no later than now + 24 hours), cut to the first
    eight. So it never has more than eight entries, and every sample behind
    an entry has a timestamp of at most now + 24 hours; on dates that are
    valid the filter is exactly that comparison. In the flow, now is the clock
    at the moment the flow returns. *)
Theorem C4_hourly (rt : Runtime) (timezoneOffset nowMs : Z) (samples : list Sample.t) :
  let kept := take 8 (List.filter (withinDay (newDate (nowMs + 24 * 60 * 60 * 1000))) samples) in
  hourlyOf rt timezoneOffset nowMs samples = mapResult (hourlyEntry rt timezoneOffset) kept
  /\ (length kept <= 8)%nat
  /\ (forall h, h ∈ kept -> h ∈ samples /\ Sample.dt h * 1000 <= nowMs + 86400000)
  /\ (forall hourly,
        hourlyOf rt timezoneOffset nowMs samples = inr hourly ->
        (length hourly <= 8)%nat
        /\ Forall2 (fun h entry => hourlyEntry rt timezoneOffset h = inr entry) kept hourly)
  /\ ((forall h, h ∈ kept -> Sample.weather h <> []) ->
      exists hourly, hourlyOf rt timezoneOffset nowMs samples = inr hourly)
  /\ (forall h,
        newDate (nowMs + 86400000) <> None -> newDate (Sample.dt h * 1000) <> None ->
        (withinDay (newDate (nowMs + 24 * 60 * 60 * 1000)) h = true
         <-> Sample.dt h * 1000 <= nowMs + 86400000))
  /\ (forall input w out w',
        getWeatherDataFlow rt input w = (inr out, w') ->
        exists fd, hourlyOf rt (Forecast.timezone fd) (now w') (Forecast.list fd)
                   = inr (Output.hourly out)).
Proof.
  intros kept.
  assert (Hlen : (length kept <= 8)%nat) by (unfold kept; rewrite length_take; lia).
  split; [reflexivity|]. split; [exact Hlen|]. split; [|split; [|split; [|split]]].
  - intros h Hh. unfold kept in Hh. apply (subseteq_take 8) in Hh.
    apply list_elem_of_In, filter_In in Hh as [Hin Hwithin].
    split; [apply list_elem_of_In, Hin|]. apply withinDay_le in Hwithin. lia.
  - intros hourly H. apply mapResult_Forall2 in H. fold kept in H.
    split; [|exact H]. rewrite <- (Forall2_length _ _ _ H). exact Hlen.
  - intros Hweather. apply mapResult_returns. intros h Hh. unfold hourlyEntry.
    destruct (Sample.weather h) as [|main rest] eqn:Hw; [by apply Hweather in Hh|].
    simpl. eauto.
  - intros h. unfold withinDay, newDate, Date_le.
    change (24 * 60 * 60 * 1000) with 86400000.
    destruct (Z.abs (nowMs + 86400000) <=? 8640000000000000); [|congruence].
    destruct (Z.abs (Sample.dt h * 1000) <=? 8640000000000000); [|congruence].
    intros _ _. apply Z.leb_le.
  - intros input w out w'. unfold getWeatherDataFlow.
    destruct (GetWeatherDataInputSchema input); [|discriminate].
    rewrite run_bind. destruct (flowBody rt input w) as [[e|out'] w1] eqn:Hbody; [discriminate|].
    destruct (GetWeatherDataOutputSchema out'); [|discriminate].
    intros [= <- <-].
    apply flowBody_returns_inv in Hbody
      as (url & r & d & r' & fd & hourly & forecast & _ & _ & _ & _ & _ & _ & _ & _
          & Hhourly & _ & Hout).
    exists fd. apply transform_hourly in Hout as [-> _]. exact Hhourly.
Qed.

(** The Paris forecast at [start]: five samples lie within the next 24 hours,
    the sixth, nine days ahead, is dropped. *)
Lemma C4_hourly_witness :
  hourlyOf (Mock.runtime 200) 7200 (now Mock.start) (Forecast.list Mock.parisForecast)
  = inr Mock.parisHours
  /\ (length Mock.parisHours <= 8)%nat
  /\ Forall2 (fun h entry => hourlyEntry (Mock.runtime 200) 7200 h = inr entry)
       (take 8 (List.filter (withinDay (newDate (now Mock.start + 24 * 60 * 60 * 1000)))
                  (Forecast.list Mock.parisForecast)))
       Mock.parisHours.
Proof.
  assert (H : hourlyOf (Mock.runtime 200) 7200 (now Mock.start)
                (Forecast.list Mock.parisForecast) = inr Mock.parisHours)
    by (vm_compute; reflexivity).
  split; [exact H|].
  exact (proj1 (proj2 (proj2 (proj2
           (C4_hourly (Mock.runtime 200) 7200 (now Mock.start)
              (Forecast.list Mock.parisForecast))))) Mock.parisHours H).
Defined.

(** C7, on the code. The nine entries of the table map as listed, and a string
    that names neither an entry nor a member of [Object.prototype] maps to
    Sunny; in the Paris scenario the snapshot has condition Rainy and
    temperature 18. A string that names a member of [Object.prototype] does
    not map to Sunny: the lookup finds the inherited member, which is truthy,
    and the function returns it. *)
Theorem C7_condition_table :
  map mapWeatherCondition
      ["Clear"; "Clouds"; "Rain"; "Drizzle"; "Snow"; "Thunderstorm"; "Mist"; "Fog"; "Haze"]%string
  = map Condition [Sunny; Cloudy; Rainy; Rainy; Snowy; Thunderstorm; Fog; Fog; Haze]
  /\ (forall main, own main mapping = None -> main ∉ Object_prototype ->
        mapWeatherCondition main = Condition Sunny)
  /\ mapWeatherCondition "Tornado" = Condition Sunny
  /\ (forall main, main ∈ Object_prototype -> mapWeatherCondition main = Inherited main)
  /\ own "constructor"%string mapping = None
  /\ mapWeatherCondition "constructor" = Inherited "constructor"
  /\ (forall rt weatherData timezoneOffset forecast hourly out,
        head (Current.weather weatherData) = Some "Rain"%string ->
        Current.temp weatherData = 18.4%float ->
        transform rt weatherData timezoneOffset forecast hourly = inr out ->
        Output.condition out = Condition Rainy /\ Output.temperature out = 18%float)
  /\ Current.weather Mock.paris = ["Rain"%string]
  /\ Current.temp Mock.paris = 18.4%float
  /\ fst (getWeatherData (Mock.runtime 200) (Mock.byName "Paris") Mock.start)
     = inr Mock.parisSnapshot
  /\ Output.condition Mock.parisSnapshot = Condition Rainy
  /\ Output.temperature Mock.parisSnapshot = 18%float.
Proof.
  split; [reflexivity|]. split; [|split; [reflexivity|split; [|split; [|split; [|split]]]]].
  - intros main Hown Hproto. unfold mapWeatherCondition. rewrite Hown.
    destruct (existsb (String.eqb main) Object_prototype) eqn:E; [|reflexivity].
    apply existsb_exists in E as (k & Hk & Heq). apply String.eqb_eq in Heq. subst k.
    exfalso. apply Hproto, list_elem_of_In, Hk.
  - intros main Hin. apply list_elem_of_In in Hin. simpl in Hin.
    repeat (destruct Hin as [<-|Hin]; [reflexivity|]). destruct Hin.
  - reflexivity.
  - reflexivity.
  - intros rt weatherData timezoneOffset forecast hourly out Hmain Htemp. unfold transform.
    destruct (Current.weather weatherData) as [|main rest]; [discriminate|].
    injection Hmain as ->. simpl. rewrite Htemp. intros [= <-].
    split; vm_compute; reflexivity.
  - repeat split; vm_compute; reflexivity.
Qed.

(** * Further properties of the module *)

(** ** The key of a location *)

Lemma isWhiteSpace_lowerChar (c : ascii) :
  JS.isWhiteSpace (JS.lowerChar c) = JS.isWhiteSpace c.
Proof. destruct c as [[] [] [] [] [] [] [] []]; reflexivity. Qed.

Lemma lowerChar_idempotent (c : ascii) : JS.lowerChar (JS.lowerChar c) = JS.lowerChar c.
Proof. destruct c as [[] [] [] [] [] [] [] []]; reflexivity. Qed.

Lemma toLowerCase_idempotent (s : string) :
  JS.toLowerCase (JS.toLowerCase s) = JS.toLowerCase s.
Proof.
  induction s as [|c s IH]; simpl; [reflexivity|].
  rewrite lowerChar_idempotent, IH. reflexivity.
Qed.

Lemma toLowerCase_trimStart (s : string) :
  JS.toLowerCase (JS.trimStart s) = JS.trimStart (JS.toLowerCase s).
Proof.
  induction s as [|c s IH]; simpl; [reflexivity|].
  rewrite isWhiteSpace_lowerChar. destruct (JS.isWhiteSpace c); [exact IH | reflexivity].
Qed.

Lemma toLowerCase_trimEnd (s : string) :
  JS.toLowerCase (JS.trimEnd s) = JS.trimEnd (JS.toLowerCase s).
Proof.
  induction s as [|c s IH]; simpl; [reflexivity|].
  rewrite <- IH, isWhiteSpace_lowerChar.
  destruct (JS.trimEnd s) as [|c' r]; simpl; [|reflexivity].
  destruct (JS.isWhiteSpace c); reflexivity.
Qed.

Lemma toLowerCase_trim (s : string) :
  JS.toLowerCase (JS.trim s) = JS.trim (JS.toLowerCase s).
Proof. unfold JS.trim. rewrite toLowerCase_trimEnd, toLowerCase_trimStart. reflexivity. Qed.

Lemma trimEnd_blank (ws : string) : blankString ws -> JS.trimEnd ws = EmptyString.
Proof.
  unfold blankString. induction ws as [|c ws IH]; simpl; intros H; [reflexivity|].
  apply Forall_cons in H as [Hc Hws]. rewrite (IH Hws), Hc. reflexivity.
Qed.

Lemma trimEnd_app_blank (s ws : string) :
  blankString ws -> JS.trimEnd (s +:+ ws) = JS.trimEnd s.
Proof.
  intros Hws. induction s as [|c s IH]; simpl; [apply trimEnd_blank, Hws|].
  rewrite IH. reflexivity.
Qed.

Lemma trimStart_blank_app (ws s : string) :
  blankString ws -> JS.trimStart (ws +:+ s) = JS.trimStart s.
Proof.
  unfold blankString. induction ws as [|c ws IH]; simpl; intros H; [reflexivity|].
  apply Forall_cons in H as [Hc Hws]. rewrite Hc. apply IH, Hws.
Qed.

Lemma trim_app_blank (s ws : string) : blankString ws -> JS.trim (s +:+ ws) = JS.trim s.
Proof.
  intros Hws. unfold JS.trim. induction s as [|c s IH]; simpl.
  - rewrite trimStart_whitespace; [reflexivity|].
    intros c Hc. unfold blankString in Hws. rewrite Forall_forall in Hws.
    apply Hws, list_elem_of_In, Hc.
  - destruct (JS.isWhiteSpace c); [exact IH|].
    change (String c (s +:+ ws)) with (String c s +:+ ws).
    apply trimEnd_app_blank, Hws.
Qed.

(** White space around a string does not survive [trim]. *)
Lemma trim_padding (ws1 s ws2 : string) :
  blankString ws1 -> blankString ws2 -> JS.trim (ws1 +:+ s +:+ ws2) = JS.trim s.
Proof.
  intros H1 H2. unfold JS.trim at 1. rewrite trimStart_blank_app by exact H1.
  fold (JS.trim (s +:+ ws2)). apply trim_app_blank, H2.
Qed.

Lemma trimEnd_idempotent (s : string) : JS.trimEnd (JS.trimEnd s) = JS.trimEnd s.
Proof.
  induction s as [|c s IH]; simpl; [reflexivity|].
  destruct (JS.trimEnd s) as [|c' r] eqn:E.
  - destruct (JS.isWhiteSpace c) eqn:Hc; simpl; [reflexivity|]. rewrite Hc. reflexivity.
  - simpl in *. rewrite IH. reflexivity.
Qed.

(** [trimEnd] keeps a first character that is no white space. *)
Lemma trimEnd_head (c : ascii) (s : string) :
  JS.isWhiteSpace c = false -> exists r, JS.trimEnd (String c s) = String c r.
Proof.
  intros Hc. simpl. destruct (JS.trimEnd s) as [|c' r]; [rewrite Hc|]; eauto.
Qed.

Lemma trimStart_shape (s : string) :
  JS.trimStart s = EmptyString
  \/ exists c r, JS.trimStart s = String c r /\ JS.isWhiteSpace c = false.
Proof.
  induction s as [|c s IH]; simpl; [by left|].
  destruct (JS.isWhiteSpace c) eqn:Hc; [exact IH|]. right. eauto.
Qed.

Lemma trim_idempotent (s : string) : JS.trim (JS.trim s) = JS.trim s.
Proof.
  unfold JS.trim. destruct (trimStart_shape s) as [->|(c & r & -> & Hc)]; [reflexivity|].
  destruct (trimEnd_head c r Hc) as [r' Hr']. rewrite Hr'. simpl JS.trimStart.
  rewrite Hc, <- Hr'. apply trimEnd_idempotent.
Qed.

Lemma append_nonempty (a b c : string) : b <> EmptyString -> a +:+ b +:+ c <> EmptyString.
Proof. destruct a; [destruct b; [congruence | discriminate] | discriminate]. Qed.

(** X1. The key of a query with a non-empty location depends on the location
    alone, not on coordinates given beside it; it is the same for every
    spelling of the location that differs in white space around it or in the
    case of its letters; and asking by the key itself gives the key back. *)
Theorem X1_location_key_normal (rt : Runtime) (l : string) (lat lon : option float) :
  l <> EmptyString ->
  getCacheKey rt (Input.make (Some l) lat lon) = getCacheKey rt (Input.make (Some l) None None)
  /\ (forall ws1 ws2 lat' lon',
        blankString ws1 -> blankString ws2 ->
        getCacheKey rt (Input.make (Some (ws1 +:+ l +:+ ws2)) lat' lon')
        = getCacheKey rt (Input.make (Some l) lat lon))
  /\ (forall l' lat' lon',
        l' <> EmptyString -> JS.toLowerCase l' = JS.toLowerCase l ->
        getCacheKey rt (Input.make (Some l') lat' lon')
        = getCacheKey rt (Input.make (Some l) lat lon))
  /\ (forall k,
        getCacheKey rt (Input.make (Some l) lat lon) = Some k -> k <> EmptyString ->
        getCacheKey rt (Input.make (Some k) None None) = Some k).
Proof.
  intros Hl.
  assert (Hkey : forall s la lo, s <> EmptyString ->
            getCacheKey rt (Input.make (Some s) la lo) = Some (JS.toLowerCase (JS.trim s))).
  { intros s la lo Hs. unfold getCacheKey. simpl.
    rewrite (proj2 (truthy_nonempty s) Hs). reflexivity. }
  split; [|split; [|split]].
  - rewrite !Hkey by exact Hl. reflexivity.
  - intros ws1 ws2 lat' lon' H1 H2.
    rewrite Hkey by (apply append_nonempty, Hl). rewrite Hkey by exact Hl.
    rewrite trim_padding by assumption. reflexivity.
  - intros l' lat' lon' Hl' Hlower. rewrite !Hkey by assumption.
    rewrite !toLowerCase_trim, Hlower. reflexivity.
  - intros k Hk Hne. rewrite Hkey in Hk by exact Hl. injection Hk as <-.
    rewrite Hkey by exact Hne.
    rewrite toLowerCase_trim, toLowerCase_idempotent, <- toLowerCase_trim, trim_idempotent.
    reflexivity.
Qed.

(** Paris, in capitals between blanks, beside coordinates. *)
Lemma X1_location_key_normal_witness :
  getCacheKey (Mock.runtime 200) (Input.make (Some " PARIS  "%string) (Some 1%float) None)
  = getCacheKey (Mock.runtime 200) (Input.make (Some "Paris"%string) None None)
  /\ getCacheKey (Mock.runtime 200) (Input.make (Some "paris"%string) None None)
     = Some "paris"%string.
Proof.
  pose proof (X1_location_key_normal (Mock.runtime 200) "Paris" None None
                ltac:(discriminate)) as (_ & Hpad & Hcase & Hfix).
  split.
  - rewrite <- (Hcase "PARIS"%string None None ltac:(discriminate) eq_refl).
    apply (Hpad " "%string "  "%string (Some 1%float) None) ; repeat constructor.
  - apply Hfix; [reflexivity | discriminate].
Defined.

(** ** What a call does to the cache *)

(** The cache a call leaves: the one it found, or that one without the
    query's entry, or that one with the query's entry set to expire five
    minutes after the return; and the clock has not gone back. *)
Lemma getWeatherData_cache (rt : Runtime) (input : Input.t) (w : World) :
  now w <= now (snd (getWeatherData rt input w))
  /\ match usableKey (getCacheKey rt input) with
     | None => weatherCache (snd (getWeatherData rt input w)) = weatherCache w
     | Some key =>
         weatherCache (snd (getWeatherData rt input w)) = weatherCache w
         \/ weatherCache (snd (getWeatherData rt input w)) = delete key (weatherCache w)
         \/ exists s,
              weatherCache (snd (getWeatherData rt input w))
              = <[key := {| data := s;
                            expiry := now (snd (getWeatherData rt input w)) + CACHE_TTL_MS |}]>
                  (weatherCache w)
     end.
Proof.
  rewrite getWeatherData_run, cacheLookup_run. unfold cacheStore.
  destruct (usableKey (getCacheKey rt input)) as [key|].
  - destruct (weatherCache w !! key) as [cached|] eqn:Hentry;
      [destruct (expiry cached <=? now w)|].
    + pose proof (getWeatherDataFlow_frames rt input
                    (withCache (delete key (weatherCache w)) w)) as (Hc & _ & Ht).
      destruct (getWeatherDataFlow rt input _) as [[e|result] w2]; simpl in *.
      * split; [exact Ht|]. right. left. exact Hc.
      * split; [exact Ht|]. right. right. exists result. rewrite Hc.
        apply insert_delete_eq.
    + simpl. split; [lia|]. left. reflexivity.
    + pose proof (getWeatherDataFlow_frames rt input w) as (Hc & _ & Ht).
      destruct (getWeatherDataFlow rt input w) as [[e|result] w2]; simpl in *.
      * split; [exact Ht|]. left. exact Hc.
      * split; [exact Ht|]. right. right. exists result. rewrite Hc. reflexivity.
  - pose proof (getWeatherDataFlow_frames rt input w) as (Hc & _ & Ht).
    destruct (getWeatherDataFlow rt input w) as [[e|result] w2]; simpl in *;
      (split; [exact Ht | exact Hc]).
Qed.

(** X2. Two queries of one key share the cache, whatever their spelling and
    whatever the network does meanwhile: once one has run the flow and
    returned a snapshot, the other is answered by exactly that snapshot, with
    no request and no change to the world, for as long as the clock is within
    five minutes of that return. *)
Theorem X2_same_key_shared (rt rt' : Runtime) (a b : Input.t) (key : string)
  (w w1 w2 : World) (s : Output.t) :
  usableKey (getCacheKey rt a) = Some key ->
  usableKey (getCacheKey rt' b) = Some key ->
  getWeatherData rt a w = (inr s, w1) ->
  requests w1 <> requests w ->
  weatherCache w2 = weatherCache w1 ->
  now w2 < now w1 + CACHE_TTL_MS ->
  getWeatherData rt' b w2 = (inr s, w2).
Proof.
  intros Ha Hb Hrun Hran Hcache Hlive.
  pose proof (getWeatherData_stores rt a key w w1 s Ha Hrun Hran) as Hentry.
  rewrite <- Hcache in Hentry.
  exact (getWeatherData_hit rt' b key _ w2 Hb Hentry Hlive).
Qed.

(** Paris fetched on a working network, then asked for as " PARIS " four
    minutes later on a network that answers 500. *)
Lemma X2_same_key_shared_witness :
  getWeatherData (Mock.runtime 500) (Mock.byName " PARIS ")
    {| now := 1717416245240;
       weatherCache := weatherCache
                         (snd (getWeatherData (Mock.runtime 200) (Mock.byName "Paris")
                                 Mock.start));
       requests := [] |}
  = (inr Mock.parisSnapshot,
     {| now := 1717416245240;
        weatherCache := weatherCache
                          (snd (getWeatherData (Mock.runtime 200) (Mock.byName "Paris")
                                  Mock.start));
        requests := [] |}).
Proof.
  apply (X2_same_key_shared (Mock.runtime 200) (Mock.runtime 500) (Mock.byName "Paris")
           (Mock.byName " PARIS ") "paris" Mock.start
           (snd (getWeatherData (Mock.runtime 200) (Mock.byName "Paris") Mock.start))).
  - reflexivity.
  - reflexivity.
  - vm_compute. reflexivity.
  - vm_compute. discriminate.
  - reflexivity.
  - vm_compute. reflexivity.
Defined.

(** X4. A call touches the cache at the query's own key only: every other
    entry is as it was, after a success as after a failure; and a query
    without a usable key leaves the whole cache as it was. *)
Theorem X4_cache_frame (rt : Runtime) (input : Input.t) (w : World) :
  (forall k, usableKey (getCacheKey rt input) <> Some k ->
     weatherCache (snd (getWeatherData rt input w)) !! k = weatherCache w !! k)
  /\ (usableKey (getCacheKey rt input) = None ->
      weatherCache (snd (getWeatherData rt input w)) = weatherCache w).
Proof.
  pose proof (getWeatherData_cache rt input w) as [_ H].
  destruct (usableKey (getCacheKey rt input)) as [key|]; [|split; [congruence | done]].
  split; [|discriminate].
  intros k Hk. assert (Hne : key <> k) by congruence.
  destruct H as [-> | [-> | [s ->]]].
  - reflexivity.
  - by apply lookup_delete_ne.
  - by apply lookup_insert_ne.
Qed.

(** A stale entry for Paris stays in place while Lyon is fetched. *)
Lemma X4_cache_frame_witness :
  weatherCache (snd (getWeatherData (Mock.runtime 200) (Mock.byName "Lyon") Mock.stale))
    !! "paris"%string
  = Some {| data := Mock.parisSnapshot; expiry := 1717416004000 |}.
Proof.
  rewrite (proj1 (X4_cache_frame (Mock.runtime 200) (Mock.byName "Lyon") Mock.stale)
             "paris"%string ltac:(vm_compute; discriminate)).
  reflexivity.
Defined.

(** X5. Every call keeps the cache well formed: it never stores under the
    empty key, and no entry it leaves expires later than five minutes after
    the call's return. Hence once five minutes have passed with the cache
    untouched, every lookup misses: no snapshot older than that is served. *)
Theorem X5_cache_invariant (rt : Runtime) (input : Input.t) (w : World) :
  cacheInvariant w ->
  cacheInvariant (snd (getWeatherData rt input w))
  /\ (forall w' k,
        weatherCache w' = weatherCache w -> now w + CACHE_TTL_MS <= now w' ->
        fst (getCachedWeather k w') = inr None).
Proof.
  intros Hinv. split.
  - pose proof (getWeatherData_cache rt input w) as [Ht H].
    intros k entry Hk.
    assert (Hold : weatherCache w !! k = Some entry ->
                   k <> EmptyString
                   /\ expiry entry <= now (snd (getWeatherData rt input w)) + CACHE_TTL_MS).
    { intros Hw. destruct (Hinv k entry Hw). split; [assumption | lia]. }
    destruct (usableKey (getCacheKey rt input)) as [key|] eqn:Hkey.
    + destruct H as [H | [H | [s H]]]; rewrite H in Hk.
      * exact (Hold Hk).
      * apply lookup_delete_Some in Hk as [_ Hk]. exact (Hold Hk).
      * apply lookup_insert_Some in Hk as [[<- <-] | [_ Hk]]; [|exact (Hold Hk)].
        split; [|simpl; lia].
        unfold usableKey in Hkey. destruct (getCacheKey rt input) as [k0|]; [|discriminate].
        destruct k0; [discriminate|]. injection Hkey as <-. discriminate.
    + rewrite H in Hk. exact (Hold Hk).
  - intros w' k Hcache Hlate. rewrite getCachedWeather_run, Hcache.
    destruct (weatherCache w !! k) as [entry|] eqn:Hk; [|reflexivity].
    destruct (Hinv k entry Hk) as [_ Hexp].
    destruct (Z.leb_spec (expiry entry) (now w')); [reflexivity | lia].
Qed.

(** A fresh process is well formed, and so is its cache after the first call. *)
Lemma X5_cache_invariant_witness :
  cacheInvariant Mock.start
  /\ cacheInvariant (snd (getWeatherData (Mock.runtime 200) (Mock.byName "Paris") Mock.start)).
Proof.
  assert (H : cacheInvariant Mock.start).
  { intros k entry Hk. simpl in Hk. rewrite lookup_empty in Hk. discriminate. }
  split; [exact H|].
  exact (proj1 (X5_cache_invariant (Mock.runtime 200) (Mock.byName "Paris") Mock.start H)).
Defined.

(** X6. A call that returned a snapshot for a query with a usable key can be
    repeated at once: the same snapshot comes back, from the cache, and the
    world stays as the first call left it, whether the first call hit the
    cache or ran the flow. *)
Theorem X6_repeat (rt : Runtime) (input : Input.t) (key : string) (w w1 : World)
  (s : Output.t) :
  usableKey (getCacheKey rt input) = Some key ->
  getWeatherData rt input w = (inr s, w1) ->
  getWeatherData rt input w1 = (inr s, w1).
Proof.
  intros Hkey Hrun.
  assert (Hentry : exists entry, weatherCache w1 !! key = Some entry
                                 /\ data entry = s /\ now w1 < expiry entry).
  { rewrite getWeatherData_run, cacheLookup_run, Hkey in Hrun. unfold cacheStore in Hrun.
    rewrite Hkey in Hrun.
    destruct (weatherCache w !! key) as [cached|] eqn:Hc;
      [destruct (Z.leb_spec (expiry cached) (now w))|].
    - destruct (getWeatherDataFlow rt input _) as [[e|result] w2]; [discriminate|].
      injection Hrun as <- <-. eexists. simpl. rewrite lookup_insert_eq.
      split; [reflexivity|]. split; [reflexivity|]. simpl. unfold CACHE_TTL_MS. lia.
    - injection Hrun as <- <-. exists cached. repeat split; assumption.
    - destruct (getWeatherDataFlow rt input w) as [[e|result] w2]; [discriminate|].
      injection Hrun as <- <-. eexists. simpl. rewrite lookup_insert_eq.
      split; [reflexivity|]. split; [reflexivity|]. simpl. unfold CACHE_TTL_MS. lia. }
  destruct Hentry as (entry & Hentry & <- & Hlive).
  exact (getWeatherData_hit rt input key entry w1 Hkey Hentry Hlive).
Qed.

(** Paris asked twice in a row. *)
Lemma X6_repeat_witness :
  getWeatherData (Mock.runtime 200) (Mock.byName "Paris")
    (snd (getWeatherData (Mock.runtime 200) (Mock.byName "Paris") Mock.start))
  = (inr Mock.parisSnapshot,
     snd (getWeatherData (Mock.runtime 200) (Mock.byName "Paris") Mock.start)).
Proof.
  apply (X6_repeat (Mock.runtime 200) (Mock.byName "Paris") "paris" Mock.start).
  - reflexivity.
  - vm_compute. reflexivity.
Defined.

(** ** The requests of a call *)

(** A body that returns has sent exactly the two requests. *)
Lemma flowBody_returns_log (rt : Runtime) (input : Input.t) (w w' : World) (out : Output.t) :
  flowBody rt input w = (inr out, w') ->
  exists url d,
    weatherUrlOf rt input = inr url
    /\ requests w' = requests w ++ [url; forecastUrlOf rt input d].
Proof.
  intros H. apply flowBody_returns_inv in H
    as (url & r & d & r' & fd & hourly & forecast & Hurl & _ & _ & _ & _ & _ & _ & -> & _).
  exists url, d. split; [exact Hurl|]. simpl. rewrite <- app_assoc. reflexivity.
Qed.

(** The snapshot the flow returns is the one its body returns. *)
Lemma getWeatherDataFlow_returns_body (rt : Runtime) (input : Input.t) (w w' : World)
  (out : Output.t) :
  getWeatherDataFlow rt input w = (inr out, w') -> flowBody rt input w = (inr out, w').
Proof.
  unfold getWeatherDataFlow. destruct (GetWeatherDataInputSchema input); [|discriminate].
  rewrite run_bind. destruct (flowBody rt input w) as [[e|out'] w1]; [discriminate|].
  destruct (GetWeatherDataOutputSchema out'); [|discriminate].
  intros [= <- <-]. reflexivity.
Qed.

(** A call that returns has sent no request, or exactly the two. *)
Lemma getWeatherData_returns_log (rt : Runtime) (input : Input.t) (w w1 : World)
  (s : Output.t) :
  getWeatherData rt input w = (inr s, w1) ->
  requests w1 = requests w
  \/ exists url d, weatherUrlOf rt input = inr url
                   /\ requests w1 = requests w ++ [url; forecastUrlOf rt input d].
Proof.
  rewrite getWeatherData_run.
  pose proof (cacheLookup_world rt input w) as (_ & Hreq & _).
  destruct (cacheLookup rt input w) as [[e|[cached|]] w0]; simpl in Hreq; [discriminate| |].
  - intros [= <- <-]. left. exact Hreq.
  - destruct (getWeatherDataFlow rt input w0) as [[e|result] w2] eqn:Hflow; [discriminate|].
    intros [= <- <-]. right.
    apply getWeatherDataFlow_returns_body, flowBody_returns_log in Hflow
      as (url & d & Hurl & Hlog).
    exists url, d. split; [exact Hurl|].
    rewrite (proj2 (cacheStore_world rt input result w2)), Hlog, Hreq. reflexivity.
Qed.





Lemma toLowerCase_nonempty (s : string) : s <> EmptyString -> JS.toLowerCase s <> EmptyString.
Proof. destruct s; [congruence | discriminate]. Qed.

(** X3. Coordinates given beside a location enter the forecast request but
    not the cache key. So after a query for a location with one pair of
    coordinates has run the flow (its second request was the forecast for
    that pair), a query for the same location with any other coordinates, or
    none, is answered within five minutes by the first one's snapshot, and no
    forecast is requested for it. *)
Theorem X3_location_hides_coordinates (rt : Runtime) (l : string) (lat lon : float)
  (lat' lon' : option float) (w w1 w2 : World) (s : Output.t) :
  JS.trim l <> EmptyString ->
  getWeatherData rt (Input.make (Some l) (Some lat) (Some lon)) w = (inr s, w1) ->
  requests w1 <> requests w ->
  weatherCache w2 = weatherCache w1 ->
  now w2 < now w1 + CACHE_TTL_MS ->
  requests w1
  = requests w
    ++ [weatherEndpoint +:+ "?q=" +:+ l +:+ "&appid=" +:+ OPENWEATHER_API_KEY rt
        +:+ "&units=metric";
        forecastEndpoint +:+ "?lat=" +:+ Number_toString rt lat +:+ "&lon="
        +:+ Number_toString rt lon +:+ "&appid=" +:+ OPENWEATHER_API_KEY rt
        +:+ "&units=metric"]
  /\ getWeatherData rt (Input.make (Some l) lat' lon') w2 = (inr s, w2).
Proof.
  intros Htrim Hrun Hran Hcache Hlive.
  assert (Hl : l <> EmptyString) by (intros ->; apply Htrim; reflexivity).
  assert (Hkey : forall la lo,
            usableKey (getCacheKey rt (Input.make (Some l) la lo))
            = Some (JS.toLowerCase (JS.trim l))).
  { intros la lo. unfold getCacheKey. simpl. rewrite (proj2 (truthy_nonempty l) Hl).
    unfold usableKey.
    rewrite (proj2 (truthy_nonempty _) (toLowerCase_nonempty _ Htrim)). reflexivity. }
  split.
  - destruct (getWeatherData_returns_log rt _ w w1 s Hrun)
      as [Hnone | (url & d & Hurl & Hlog)]; [congruence|].
    rewrite (weatherUrlOf_location rt (Input.make (Some l) (Some lat) (Some lon)) l
               eq_refl Hl) in Hurl.
    injection Hurl as <-.
    exact Hlog.
  - pose proof (getWeatherData_stores rt _ _ w w1 s (Hkey _ _) Hrun Hran) as Hentry.
    rewrite <- Hcache in Hentry.
    exact (getWeatherData_hit rt _ _ _ w2 (Hkey _ _) Hentry Hlive).
Qed.

(** The mocked query in both forms, then London with the coordinates of
    Paris: the second is served the snapshot fetched for the first. *)
Lemma X3_location_hides_coordinates_witness :
  getWeatherData (Mock.runtime 200)
    (Input.make (Some "London"%string) (Some 48.85%float) (Some 2.35%float))
    (snd (getWeatherData (Mock.runtime 200) Mock.both Mock.start))
  = (inr Mock.parisSnapshot, snd (getWeatherData (Mock.runtime 200) Mock.both Mock.start))
  /\ requests (snd (getWeatherData (Mock.runtime 200) Mock.both Mock.start))
     = Mock.bothRequests.
Proof.
  destruct (X3_location_hides_coordinates (Mock.runtime 200) "London" 51.5 (-0.12)
              (Some 48.85%float) (Some 2.35%float) Mock.start
              (snd (getWeatherData (Mock.runtime 200) Mock.both Mock.start))
              (snd (getWeatherData (Mock.runtime 200) Mock.both Mock.start))
              Mock.parisSnapshot) as [Hlog Hhit].
  - vm_compute. discriminate.
  - vm_compute. reflexivity.
  - vm_compute. discriminate.
  - reflexivity.
  - vm_compute. reflexivity.
  - split; [exact Hhit|]. vm_compute. reflexivity.
Defined.

(** ** The daily forecast: conditions and failures *)

(** X8. The condition of a day in the forecast is the mapped condition of the
    first sample of that day in list order: later samples of the day, however
    many and whatever their weather, do not change it. *)
Theorem X8_daily_condition_first (rt : Runtime) (samples : list Sample.t)
  (forecast : list Daily.t) (d : Daily.t) :
  forecastOf rt samples = inr forecast ->
  d ∈ forecast ->
  exists first rest main,
    dayGroup rt (Daily.day d) samples = first :: rest
    /\ head (Sample.weather first) = Some main
    /\ Daily.condition d = mapWeatherCondition main.
Proof.
  intros H Hd.
  destruct (forecastOf_entry _ _ _ _ H Hd)
    as (v & -> & _ & (first & main & Hfirst & Hmain & Hcond) & _).
  simpl in *. destruct (dayGroup rt (Daily.day v) samples) as [|x rest]; [discriminate|].
  injection Hfirst as ->. exists first, rest, main. done.
Qed.

(** Tuesday in the Paris forecast: Clear first, then Tornado; the day is Sunny
    for its first sample, not for the default. *)
Lemma X8_daily_condition_first_witness :
  exists first rest main,
    dayGroup (Mock.runtime 200) "Tue" (Forecast.list Mock.parisForecast) = first :: rest
    /\ head (Sample.weather first) = Some main
    /\ Condition Sunny = mapWeatherCondition main.
Proof.
  refine (X8_daily_condition_first (Mock.runtime 200) (Forecast.list Mock.parisForecast)
            Mock.parisDays (Daily.make "Tue" (Condition Sunny) 24 11 33) _ _).
  - vm_compute. reflexivity.
  - apply list_elem_of_In. simpl. tauto.
Defined.

Lemma dayGroup_app (rt : Runtime) (day : string) (xs ys : list Sample.t) :
  dayGroup rt day (xs ++ ys) = dayGroup rt day xs ++ dayGroup rt day ys.
Proof. unfold dayGroup. apply List.filter_app. Qed.

Lemma dayLabel_valid (rt : Runtime) (item : Sample.t) :
  newDate (Sample.dt item * 1000) <> None <-> exists day, dayLabel rt item = inr day.
Proof.
  unfold dayLabel, format_EEE. destruct (newDate (Sample.dt item * 1000)).
  - split; [eauto | discriminate].
  - split; [congruence | intros [day H]; discriminate].
Qed.

(** The daily loop returns as soon as every sample carries a valid date and
    the first sample of every day not yet seen carries a weather entry. *)
Lemma dailyLoop_returns_first (rt : Runtime) (items seen : list Sample.t)
  (o : list (string * Daily.t)) :
  dailyInvariant rt seen o ->
  (forall item, item ∈ items -> newDate (Sample.dt item * 1000) <> None) ->
  (forall day first,
     head (dayGroup rt day (seen ++ items)) = Some first ->
     dayGroup rt day seen = [] -> Sample.weather first <> []) ->
  exists o', dailyLoop rt o items = inr o'.
Proof.
  revert seen o. induction items as [|item items IH]; intros seen o Hinv Hdates Hfirst;
    simpl; [by exists o|].
  destruct (proj1 (dayLabel_valid rt item) (Hdates item ltac:(by left))) as [day Hday].
  assert (Hstep : exists o1, dailyStep rt o item = inr o1).
  { unfold dailyStep. fold (dayLabel rt item). rewrite Hday. simpl.
    destruct (lookupDay day o) as [v|] eqn:Hlook; simpl; [eauto|].
    destruct (Sample.weather item) as [|main rest] eqn:Hw; simpl; [|eauto].
    exfalso. destruct Hinv as [Hkeys _].
    assert (Hnew : dayGroup rt day seen = []).
    { apply dayGroup_unseen. rewrite <- firstSeen_elem, <- Hkeys.
      apply lookupDay_None, Hlook. }
    apply (Hfirst day item); [|exact Hnew | exact Hw].
    rewrite dayGroup_app, Hnew. simpl. rewrite Hday, String.eqb_refl. reflexivity. }
  destruct Hstep as [o1 Hstep]. rewrite Hstep. simpl.
  apply (IH (seen ++ [item]) o1).
  - eapply dailyStep_invariant; eassumption.
  - intros i Hi. apply Hdates. by right.
  - intros d first Hhead Hnone. apply (Hfirst d first).
    + rewrite <- app_assoc in Hhead. exact Hhead.
    + rewrite dayGroup_app in Hnone. apply app_eq_nil in Hnone as [Hnone _]. exact Hnone.
Qed.

(** What the daily loop can throw. *)
Lemma dailyLoop_throws (rt : Runtime) (items : list Sample.t) (o : list (string * Daily.t))
  (e : Exn) :
  dailyLoop rt o items = inl e -> e = RangeError \/ e = TypeError.
Proof.
  revert o. induction items as [|item items IH]; intros o; simpl; [discriminate|].
  destruct (dailyStep rt o item) as [e1|o1] eqn:Hstep; simpl; [|apply IH].
  intros [= <-]. unfold dailyStep, format_EEE in Hstep.
  destruct (newDate (Sample.dt item * 1000)); simpl in Hstep; [|left; congruence].
  destruct (lookupDay _ o); simpl in Hstep; [discriminate|].
  destruct (Sample.weather item); simpl in Hstep; [right; congruence | discriminate].
Qed.

(** X9. The daily aggregation returns exactly when every sample carries a
    valid date and the first sample of every day carries a weather entry; a
    later sample of a day may lack one. When it does not return it throws a
    RangeError (an invalid date) or a TypeError (no weather entry). *)
Theorem X9_daily_returns_iff (rt : Runtime) (samples : list Sample.t) :
  ((exists forecast, forecastOf rt samples = inr forecast)
   <-> (forall item, item ∈ samples -> newDate (Sample.dt item * 1000) <> None)
       /\ (forall day first,
             head (dayGroup rt day samples) = Some first -> Sample.weather first <> []))
  /\ (forall e, forecastOf rt samples = inl e -> e = RangeError \/ e = TypeError).
Proof.
  split; [split|].
  - intros [forecast H]. split.
    + intros item Hin. apply (dayLabel_valid rt).
      apply forecastOf_inv in H as (o & Hloop & _ & _).
      exact (dailyLoop_labelled rt _ _ _ Hloop item Hin).
    + intros day first Hhead.
      assert (Hin : In first (dayGroup rt day samples)).
      { destruct (dayGroup rt day samples); [discriminate|]. injection Hhead as ->. by left. }
      unfold dayGroup in Hin. apply filter_In in Hin as [Hin Hlabel].
      destruct (forecastOf_covers rt _ _ first H (proj2 (list_elem_of_In _ _) Hin))
        as (d & Hd & Hday).
      rewrite Hday in Hlabel. apply String.eqb_eq in Hlabel.
      destruct (forecastOf_entry _ _ _ _ H Hd)
        as (v & _ & _ & (first' & main & Hfirst' & Hmain & _) & _).
      rewrite Hlabel, Hhead in Hfirst'. injection Hfirst' as <-.
      destruct (Sample.weather first); [discriminate | congruence].
  - intros [Hdates Hfirst].
    destruct (dailyLoop_returns_first rt samples [] [] (dailyInvariant_start rt) Hdates)
      as [o Ho].
    + intros day first Hhead _. exact (Hfirst day first Hhead).
    + unfold forecastOf. rewrite Ho. simpl. eauto.
  - intros e. unfold forecastOf.
    destruct (dailyLoop rt [] samples) as [e'|o] eqn:Hloop; [|discriminate].
    simpl. intros [= <-]. exact (dailyLoop_throws rt _ _ _ Hloop).
Qed.

(** A day whose second sample has no weather entry still aggregates; a day
    whose first sample has none does not. *)
Example daily_weather_entries :
  forecastOf (Mock.runtime 200)
    [Mock.sample 1717416000 "Rain" 18.4 10 2 80;
     Sample.make 1717426800 [] 17 15 (-1) 60 2.5]
  = inr [Daily.make "Mon" (Condition Rainy) 15 (-1) 50]
  /\ forecastOf (Mock.runtime 200)
       [Sample.make 1717416000 [] 18.4 10 2 80 2.5;
        Mock.sample 1717426800 "Rain" 17 15 (-1) 60]
     = inl TypeError.
Proof. split; vm_compute; reflexivity. Qed.

(** ** The hourly forecast: order and failures *)

(** On a list sorted for a relation, a filter that passes everything before
    a passing element keeps a prefix, and the element after the prefix does
    not pass. *)
Lemma filter_sorted_prefix {A} (R : A -> A -> Prop) (p : A -> bool) (l : list A) :
  StronglySorted R l ->
  (forall a b, In a l -> In b l -> R a b -> p b = true -> p a = true) ->
  List.filter p l = take (length (List.filter p l)) l
  /\ forall x, l !! length (List.filter p l) = Some x -> p x = false.
Proof.
  induction 1 as [|a l Hsorted IH Hall]; intros Hdown; simpl; [done|].
  destruct (p a) eqn:Hpa; simpl.
  - destruct IH as [IH1 IH2].
    { intros x y Hx Hy. apply Hdown; by right. }
    split; [f_equal; exact IH1 | exact IH2].
  - assert (Hnone : List.filter p l = []).
    { rewrite Forall_forall in Hall.
      destruct (List.filter p l) as [|b rest] eqn:Hf; [reflexivity|]. exfalso.
      assert (Hb : In b (List.filter p l)) by (rewrite Hf; by left).
      apply filter_In in Hb as [Hb Hpb].
      rewrite (Hdown a b ltac:(by left) ltac:(by right)
                 (Hall b (proj2 (list_elem_of_In _ _) Hb)) Hpb) in Hpa.
      discriminate. }
    rewrite Hnone. simpl. split; [reflexivity|]. intros x [= <-]. exact Hpa.
Qed.

(** X10. On samples in chronological order, all with valid dates, the hourly
    forecast is built from a prefix of the list: its first [n] samples, where
    [n] is at most eight; and when fewer than eight are taken, the next sample
    in the list, if there is one, does not pass the date filter. *)
Theorem X10_hourly_prefix (rt : Runtime) (timezoneOffset nowMs : Z) (samples : list Sample.t) :
  chronological samples ->
  (forall h, h ∈ samples -> newDate (Sample.dt h * 1000) <> None) ->
  exists n,
    (n <= 8)%nat
    /\ hourlyOf rt timezoneOffset nowMs samples
       = mapResult (hourlyEntry rt timezoneOffset) (take n samples)
    /\ (forall hourly, hourlyOf rt timezoneOffset nowMs samples = inr hourly ->
          length hourly = Nat.min n (length samples))
    /\ ((n < 8)%nat ->
        forall h, samples !! n = Some h ->
                  withinDay (newDate (nowMs + 24 * 60 * 60 * 1000)) h = false).
Proof.
  intros Hsorted Hvalid.
  set (limit := newDate (nowMs + 24 * 60 * 60 * 1000)).
  destruct (filter_sorted_prefix _ (withinDay limit) samples Hsorted) as [Hprefix Hnext].
  { intros a b Ha Hb Hab. unfold withinDay, Date_le.
    pose proof (Hvalid a (proj2 (list_elem_of_In _ _) Ha)) as Hva.
    pose proof (Hvalid b (proj2 (list_elem_of_In _ _) Hb)) as Hvb.
    unfold newDate in *.
    destruct (Z.abs (Sample.dt a * 1000) <=? 8640000000000000); [|congruence].
    destruct (Z.abs (Sample.dt b * 1000) <=? 8640000000000000); [|congruence].
    destruct limit as [L|]; [|discriminate].
    rewrite !Z.leb_le. lia. }
  set (m := length (List.filter (withinDay limit) samples)) in *.
  assert (Hkept : take 8 (List.filter (withinDay limit) samples)
                  = take (Nat.min 8 m) samples).
  { rewrite Hprefix, take_take. reflexivity. }
  exists (Nat.min 8 m). split; [lia|]. split; [|split].
  - unfold hourlyOf. fold limit. rewrite Hkept. reflexivity.
  - intros hourly H. unfold hourlyOf in H. fold limit in H. rewrite Hkept in H.
    apply mapResult_Forall2, Forall2_length in H. rewrite <- H, length_take. reflexivity.
  - intros Hlt h Hh. replace (Nat.min 8 m) with m in Hh by lia. exact (Hnext h Hh).
Qed.

(** The Paris forecast is chronological: at [start] the first five samples
    are taken and the sixth is beyond the window. *)
Lemma X10_hourly_prefix_witness :
  chronological (Forecast.list Mock.parisForecast)
  /\ exists n,
       (n <= 8)%nat
       /\ hourlyOf (Mock.runtime 200) 7200 (now Mock.start) (Forecast.list Mock.parisForecast)
          = mapResult (hourlyEntry (Mock.runtime 200) 7200)
              (take n (Forecast.list Mock.parisForecast)).
Proof.
  assert (Hsorted : chronological (Forecast.list Mock.parisForecast)).
  { unfold chronological. simpl.
    repeat (apply SSorted_cons; [|repeat (constructor; [simpl; lia|]); constructor]).
    apply SSorted_nil. }
  split; [exact Hsorted|].
  destruct (X10_hourly_prefix (Mock.runtime 200) 7200 (now Mock.start)
              (Forecast.list Mock.parisForecast) Hsorted) as (n & Hn & Hrun & _).
  - intros h Hh. apply list_elem_of_In in Hh. simpl in Hh.
    repeat (destruct Hh as [<-|Hh]; [vm_compute; discriminate|]). destruct Hh.
  - exists n. split; [exact Hn | exact Hrun].
Defined.

Lemma mapResult_throws {A B} (f : A -> Result B) (xs : list A) (e : Exn) :
  mapResult f xs = inl e -> exists x, x ∈ xs /\ f x = inl e.
Proof.
  induction xs as [|x xs IH]; simpl; [discriminate|].
  destruct (f x) as [e1|y] eqn:Hx; simpl.
  - intros [= <-]. exists x. split; [by left | exact Hx].
  - destruct (mapResult f xs) as [e2|ys]; simpl; [|discriminate].
    intros [= <-]. destruct (IH eq_refl) as (x' & Hin & Hx'). exists x'. split; [by right | done].
Qed.

(** X12. The hourly step returns exactly when every sample it keeps (within
    the window, among the first eight of those) carries a weather entry;
    otherwise it throws a TypeError. A sample that is filtered out or cut off
    cannot make it throw. *)
Theorem X12_hourly_returns_iff (rt : Runtime) (timezoneOffset nowMs : Z)
  (samples : list Sample.t) :
  ((exists hourly, hourlyOf rt timezoneOffset nowMs samples = inr hourly)
   <-> forall h,
         h ∈ take 8 (List.filter (withinDay (newDate (nowMs + 24 * 60 * 60 * 1000))) samples) ->
         Sample.weather h <> [])
  /\ (forall e, hourlyOf rt timezoneOffset nowMs samples = inl e -> e = TypeError).
Proof.
  unfold hourlyOf.
  set (kept := take 8 (List.filter (withinDay (newDate (nowMs + 24 * 60 * 60 * 1000))) samples)).
  split; [split|].
  - intros [hourly H] h Hh Hw. apply mapResult_Forall2 in H.
    apply list_elem_of_lookup in Hh as [i Hi].
    destruct (Forall2_lookup_l _ _ _ _ _ H Hi) as (entry & _ & Hentry).
    unfold hourlyEntry in Hentry. rewrite Hw in Hentry. discriminate.
  - intros Hw. apply mapResult_returns. intros h Hh. unfold hourlyEntry.
    destruct (Sample.weather h) as [|main rest] eqn:E; [by apply Hw in Hh|]. simpl. eauto.
  - intros e H. apply mapResult_throws in H as (h & _ & Hh). unfold hourlyEntry in Hh.
    destruct (Sample.weather h); simpl in Hh; [congruence | discriminate].
Qed.

(** ** The snapshot of the flow *)

(** X11. A snapshot the flow returns has a location that is not empty (the
    provider's name, or 'Current Location' in its place), at most seven days,
    each under a different weekday name, and at most eight hourly entries. *)
Theorem X11_snapshot_shape (rt : Runtime) (input : Input.t) (w w' : World) (out : Output.t) :
  getWeatherDataFlow rt input w = (inr out, w') ->
  Output.location out <> EmptyString
  /\ (length (Output.forecast out) <= 7)%nat
  /\ NoDup (map Daily.day (Output.forecast out))
  /\ (forall d, d ∈ Output.forecast out -> Daily.day d ∈ weekdays)
  /\ (length (Output.hourly out) <= 8)%nat.
Proof.
  intros H. apply getWeatherDataFlow_returns_body, flowBody_returns_inv in H
    as (url & r & d & r' & fd & hourly & forecast & _ & _ & _ & _ & _ & _ & _ & _
        & Hhourly & Hforecast & Hout).
  pose proof (forecastOf_days rt _ _ Hforecast) as Hdays.
  destruct (transform_hourly _ _ _ _ _ _ Hout) as [-> ->].
  split; [|split; [|split; [|split]]].
  - unfold transform in Hout. destruct (weather0_main _); [discriminate|].
    simpl in Hout. injection Hout as <-. simpl.
    destruct (Current.name d); [discriminate | discriminate].
  - rewrite <- (length_map Daily.day), Hdays. apply firstSeen_labels_length.
  - rewrite Hdays. apply firstSeen_NoDup.
  - intros day Hday. eapply labels_weekdays. apply firstSeen_elem. rewrite <- Hdays.
    apply list_elem_of_fmap. eauto.
  - unfold hourlyOf in Hhourly. apply mapResult_Forall2, Forall2_length in Hhourly.
    rewrite <- Hhourly, length_take. lia.
Qed.

(** The snapshot of Paris. *)
Lemma X11_snapshot_shape_witness :
  Output.location Mock.parisSnapshot <> EmptyString
  /\ (length (Output.forecast Mock.parisSnapshot) <= 7)%nat
  /\ NoDup (map Daily.day (Output.forecast Mock.parisSnapshot))
  /\ (forall d, d ∈ Output.forecast Mock.parisSnapshot -> Daily.day d ∈ weekdays)
  /\ (length (Output.hourly Mock.parisSnapshot) <= 8)%nat.
Proof.
  apply (X11_snapshot_shape (Mock.runtime 200) (Mock.byName "Paris") Mock.start
           (snd (getWeatherDataFlow (Mock.runtime 200) (Mock.byName "Paris") Mock.start))).
  vm_compute. reflexivity.
Defined.

(** ** Which queries go past the cache *)

Lemma trimStart_empty (s : string) : JS.trimStart s = EmptyString -> blankString s.
Proof.
  unfold blankString. induction s as [|c s IH]; simpl; intros H; [constructor|].
  destruct (JS.isWhiteSpace c) eqn:Hc; [|discriminate].
  constructor; [exact Hc | exact (IH H)].
Qed.

Lemma trim_empty (s : string) : JS.trim s = EmptyString <-> blankString s.
Proof.
  split; [|apply trim_whitespace].
  unfold JS.trim. intros H. apply trimStart_empty.
  destruct (trimStart_shape s) as [Hs|(c & r & Hs & Hc)]; [exact Hs|].
  rewrite Hs in H. destruct (trimEnd_head c r Hc) as [r' Hr']. congruence.
Qed.

(** X13. A query goes past the cache (it has no usable key) in two cases
    only: it is in neither form, and is refused; or its location is a
    non-empty string of white space. Every query by coordinates alone, and
    every query whose location has a character that is no white space, is
    looked up and, on success, stored. *)
Theorem X13_cache_bypass (rt : Runtime) (input : Input.t) :
  usableKey (getCacheKey rt input) = None
  <-> locationForm input || coordinateForm input = false
      \/ exists l, Input.location input = Some l /\ l <> EmptyString /\ blankString l.
Proof.
  unfold usableKey, getCacheKey, locationForm, coordinateForm.
  destruct input as [[l|] lat lon]; simpl.
  - destruct l as [|c l'] eqn:El; simpl.
    + destruct lat as [la|], lon as [lo|]; simpl;
        try (split; [intros _; by left | reflexivity]).
      split; [|intros [H|(l0 & H & Hne & _)]; [discriminate | congruence]].
      destruct (JS.toFixed (Number_toString rt) 2 la); discriminate.
    + rewrite <- El. assert (Hne : l <> EmptyString) by (subst; discriminate).
      clear El. split.
      * intros H. right. exists l. split; [reflexivity|]. split; [exact Hne|].
        apply trim_empty. destruct (JS.trim l); [reflexivity | discriminate].
      * intros [H|(l0 & [= <-] & _ & Hblank)]; [discriminate|].
        rewrite (proj2 (trim_empty l) Hblank). reflexivity.
  - destruct lat as [la|], lon as [lo|]; simpl;
      try (split; [intros _; by left | reflexivity]).
    split; [|intros [H|(l0 & H & _)]; discriminate].
    destruct (JS.toFixed (Number_toString rt) 2 la); discriminate.
Qed.
